(** * hvicorn: envelope classifier, session directory, dispatch engine,
      command router and plugin manager

    A shallow embedding of [hvicorn/utils/json_to_object.py],
    [hvicorn/models/server/*.py] and [hvicorn/bot/client.py].

    Conventions.
    - A Python [str] is a [string]: the bytes of its UTF-8 encoding.  Every
      operation the code applies to text ([count(" ")], [split(" ", 1)],
      [split(" ")], [split()], [startswith], [==], membership in the ASCII
      alphabet) gives the same answer on the encoding as on the code points.
      [len] is only used by [verifyNick], where a string with a non-ASCII
      character is rejected whatever its length.
    - A Python exception is a value of [PyExc]; a call that may raise returns
      a [Result].
    - A JSON value off the wire is a [json]; numbers are integers (the chat
      protocol carries no fractional number). *)

From Stdlib Require Import ZArith NArith Ascii String.
From stdpp Require Import gmap strings list fin_maps.

Open Scope string_scope.
Open Scope list_scope.

(** ** Python exceptions and results *)

Inductive PyExc :=
  | ValueError | KeyError | IndexError | AttributeError | TypeError
  | ValidationError | RuntimeError.

Inductive Result (A : Type) :=
  | Ok (a : A)
  | Raise (e : PyExc).
Arguments Ok {A} a.
Arguments Raise {A} e.

Definition is_ok {A} (r : Result A) : bool :=
  match r with Ok _ => true | Raise _ => false end.

#[global] Instance PyExc_eq_dec : EqDecision PyExc.
Proof. solve_decision. Defined.

(** ** Python string operations *)

Module PyStr.

Definition code (c : ascii) : N := N_of_ascii c.

(** [s.count(" ")] for a one-character needle. *)
Fixpoint count (c : ascii) (s : string) : nat :=
  match s with
  | EmptyString => 0
  | String a s' => (if Ascii.eqb a c then 1 else 0) + count c s'
  end.

(** [s.startswith(p)] *)
Definition startswith (s p : string) : bool := String.prefix p s.

Fixpoint drop (n : nat) (s : string) : string :=
  match n, s with
  | O, _ => s
  | S n', String _ s' => drop n' s'
  | S _, EmptyString => EmptyString
  end.

(** The first occurrence of the non-empty separator [sep] in [s]: the text
    before it and the text after it. *)
Fixpoint partition (sep s : string) : option (string * string) :=
  if String.prefix sep s then Some (EmptyString, drop (String.length sep) s)
  else match s with
       | EmptyString => None
       | String c s' =>
           match partition sep s' with
           | Some (a, b) => Some (String c a, b)
           | None => None
           end
       end.

(** [s.split(sep, 1)]: one or two pieces. *)
Definition split1 (sep s : string) : list string :=
  match partition sep s with
  | Some (a, b) => [a; b]
  | None => [s]
  end.

(** [s.split(c)] for a one-character separator: [n] separators give
    [n + 1] pieces, empty pieces included. *)
Fixpoint split_char (c : ascii) (s : string) : list string :=
  match s with
  | EmptyString => [EmptyString]
  | String a s' =>
      if Ascii.eqb a c then EmptyString :: split_char c s'
      else match split_char c s' with
           | w :: ws => String a w :: ws
           | [] => [String a EmptyString]
           end
  end.

(** Number of bytes of the whitespace character [s] starts with, [0] when
    it starts with none.  Python's [str.isspace] characters: U+0009-000D,
    U+001C-001F, U+0020, U+0085, U+00A0, U+1680, U+2000-200A, U+2028,
    U+2029, U+202F, U+205F and U+3000. *)
Definition ws_len (s : string) : nat :=
  match s with
  | EmptyString => 0
  | String a r =>
      let x := code a in
      if ((x =? 32) || ((9 <=? x) && (x <=? 13)) || ((28 <=? x) && (x <=? 31)))%N
      then 1
      else match r with
           | EmptyString => 0
           | String b r2 =>
               let y := code b in
               if ((x =? 194) && ((y =? 133) || (y =? 160)))%N then 2
               else match r2 with
                    | EmptyString => 0
                    | String c _ =>
                        let z := code c in
                        if ((x =? 225) && (y =? 154) && (z =? 128))%N then 3
                        else if ((x =? 226) && (y =? 128)
                                 && (((128 <=? z) && (z <=? 138))
                                     || (z =? 168) || (z =? 169) || (z =? 175)))%N
                        then 3
                        else if ((x =? 226) && (y =? 129) && (z =? 159))%N then 3
                        else if ((x =? 227) && (y =? 128) && (z =? 128))%N then 3
                        else 0
                    end
           end
  end.

Definition flush (cur : string) : list string :=
  match cur with EmptyString => [] | _ => [cur] end.

(** [skip] counts the remaining bytes of a whitespace character being
    stepped over; [cur] is the word read so far. *)
Fixpoint split_ws_go (skip : nat) (cur : string) (s : string) : list string :=
  match s with
  | EmptyString => flush cur
  | String c s' =>
      match skip with
      | S k => split_ws_go k cur s'
      | O =>
          match ws_len s with
          | O => split_ws_go 0 (cur +:+ String c EmptyString) s'
          | S k => flush cur ++ split_ws_go k EmptyString s'
          end
      end
  end.

(** [s.split()]: the maximal runs of non-whitespace characters. *)
Definition split_ws (s : string) : list string := split_ws_go 0 EmptyString s.

Fixpoint all (p : ascii → bool) (s : string) : bool :=
  match s with
  | EmptyString => true
  | String a s' => p a && all p s'
  end.

End PyStr.

(** [l[i]] on a Python list. *)
Definition py_index {A} (l : list A) (i : nat) : Result A :=
  match l !! i with
  | Some x => Ok x
  | None => Raise IndexError
  end.

(** ** Nickname validity ([verifyNick]) *)

(** [string.ascii_letters + string.digits + "_"] *)
Definition NICK_ALPHABET : string :=
  "abcdefghijklmnopqrstuvwxyzABCDEFGHIJKLMNOPQRSTUVWXYZ0123456789_".

(** [char in string.ascii_letters + string.digits + "_"] *)
Definition nick_char (c : ascii) : bool :=
  existsb (Ascii.eqb c) (list_ascii_of_string NICK_ALPHABET).

Definition verifyNick (nick : string) : bool :=
  if (24 <? String.length nick)%nat then false
  else PyStr.all nick_char nick.

(** ** JSON values and envelopes *)

#[warnings="-register-all"]
Inductive json :=
  | JNull
  | JBool (b : bool)
  | JInt (z : Z)
  | JStr (s : string)
  | JArr (l : list json)
  | JObj (o : list (string * json)).

(** The dict handed to [json_to_object]. *)
Abbreviation envelope := (gmap string json).

(** Python truthiness of a JSON value. *)
Definition truthy (j : json) : bool :=
  match j with
  | JNull => false
  | JBool b => b
  | JInt z => negb (z =? 0)%Z
  | JStr s => negb (String.eqb s "")
  | JArr l => match l with [] => false | _ => true end
  | JObj o => match o with [] => false | _ => true end
  end.

(** [not data.get(k)] *)
Definition py_not (o : option json) : bool :=
  match o with
  | None => true
  | Some j => negb (truthy j)
  end.

(** [j == "literal"] *)
Definition eq_str (j : json) (s : string) : bool :=
  match j with
  | JStr c => String.eqb c s
  | _ => false
  end.

(** [data.get(k) == "literal"] *)
Definition get_is (o : option json) (s : string) : bool :=
  match o with
  | Some j => eq_str j s
  | None => false
  end.

(** Lookup in a nested JSON object. *)
Fixpoint obj_get (o : list (string * json)) (k : string) : option json :=
  match o with
  | [] => None
  | (k', v) :: o' => if String.eqb k' k then Some v else obj_get o' k
  end.

(** Methods of [str] called on a JSON value: any value but a string has no
    such attribute (a list has [count], and nothing else of these). *)
Definition j_count_space (j : json) : Result nat :=
  match j with
  | JStr s => Ok (PyStr.count " " s)
  | JArr l => Ok (length (filter (λ x, eq_str x " " = true) l))
  | _ => Raise AttributeError
  end.

Definition j_split1 (sep : string) (j : json) : Result (list string) :=
  match j with
  | JStr s => Ok (PyStr.split1 sep s)
  | _ => Raise AttributeError
  end.

Definition j_split_char (j : json) : Result (list string) :=
  match j with
  | JStr s => Ok (PyStr.split_char " " s)
  | _ => Raise AttributeError
  end.

Definition j_split_ws (j : json) : Result (list string) :=
  match j with
  | JStr s => Ok (PyStr.split_ws s)
  | _ => Raise AttributeError
  end.

Definition j_startswith (j : json) (p : string) : Result bool :=
  match j with
  | JStr s => Ok (PyStr.startswith s p)
  | _ => Raise AttributeError
  end.

(** ** Field validation of the pydantic models

    The models are pydantic [BaseModel]s with the default configuration:
    unknown keys are ignored, a field with an alias is read from the alias,
    a [Literal] accepts exactly its values, [str] accepts strings only, and
    [int] and [bool] accept their own kind and whatever else pydantic's lax
    mode converts, which is the parameter [LaxCoercion]. *)

Class LaxCoercion := {
  lax_int : json → option Z;
  lax_bool : json → option bool
}.

Inductive UType := user | mod_ | admin.
Inductive EditMode := overwrite | prepend | append | complete.
Inductive RLType := CHANNEL_RL | COLOR_RL | CHANGENICK_RL | MESSAGE_RL | GLOBAL_RL.

(** A value of a field typed [Union[bool, str]] (or [Union[str, bool]]). *)
Inductive Color := CBool (b : bool) | CStr (s : string).

#[global] Instance UType_eq_dec : EqDecision UType.
Proof. solve_decision. Defined.
#[global] Instance EditMode_eq_dec : EqDecision EditMode.
Proof. solve_decision. Defined.
#[global] Instance RLType_eq_dec : EqDecision RLType.
Proof. solve_decision. Defined.
#[global] Instance Color_eq_dec : EqDecision Color.
Proof. solve_decision. Defined.

Section Validators.
Context {lax : LaxCoercion}.

Definition v_str (j : json) : option string :=
  match j with JStr s => Some s | _ => None end.

Definition v_int (j : json) : option Z :=
  match j with JInt z => Some z | _ => lax_int j end.

Definition v_bool (j : json) : option bool :=
  match j with JBool b => Some b | _ => lax_bool j end.

(** [Union[bool, str]]: an exact match first, then the lax conversions
    left to right (no JSON value converts to [str]). *)
Definition v_color (j : json) : option Color :=
  match j with
  | JBool b => Some (CBool b)
  | JStr s => Some (CStr s)
  | _ => CBool <$> lax_bool j
  end.

(** [Literal[s]] *)
Definition v_lit (s : string) (j : json) : option unit :=
  if eq_str j s then Some tt else None.

Definition v_utype (j : json) : option UType :=
  if eq_str j "user" then Some user
  else if eq_str j "mod" then Some mod_
  else if eq_str j "admin" then Some admin
  else None.

Definition v_mode (j : json) : option EditMode :=
  if eq_str j "overwrite" then Some overwrite
  else if eq_str j "prepend" then Some prepend
  else if eq_str j "append" then Some append
  else if eq_str j "complete" then Some complete
  else None.

(** [List[T]] *)
Definition v_list {A} (v : json → option A) (j : json) : option (list A) :=
  match j with
  | JArr l => mapM v l
  | _ => None
  end.

(** A required field, and a field [Optional[T] = None]. *)
Definition req {A} (get : string → option json) (k : string)
    (v : json → option A) : option A :=
  match get k with
  | Some j => v j
  | None => None
  end.

Definition opt {A} (get : string → option json) (k : string)
    (v : json → option A) : option (option A) :=
  match get k with
  | None | Some JNull => Some None
  | Some j => Some <$> v j
  end.

End Validators.

(** ** The event taxonomy ([hvicorn/models/server])

    One record per model; a field typed [Literal[c]] with a single value is
    checked by the validator and not stored. *)

Record User := {
  u_channel : option string;
  u_color : Color;
  u_hash : string;
  u_isBot : bool;
  u_isme : bool;
  u_level : Z;
  u_nick : string;
  u_trip : option string;
  u_uType : UType;
  u_userid : Z
}.

Record ChatPackage := {
  chat_channel : string;
  chat_color : option string;
  chat_level : Z;
  chat_nick : string;
  chat_text : string;
  chat_time : Z;
  chat_trip : option string;
  chat_uType : UType;
  chat_userid : Z;
  chat_customId : option string
}.

Record EmotePackage := {
  emote_channel : string;
  emote_nick : string;
  emote_text : string;
  emote_content : string;
  emote_time : Z;
  emote_trip : option string;
  emote_userid : Z
}.

Record InfoPackage := { info_text : string }.

Record InvitePackage := {
  inv_channel : string;
  inv_from_nick : string;
  inv_invite_channel : string;
  inv_text : string;
  inv_time : Z;
  inv_to_userid : Z
}.

Record OnlineAddPackage := {
  add_channel : option string;
  add_color : Color;
  add_hash : string;
  add_isBot : bool;
  add_level : Z;
  add_nick : string;
  add_time : Z;
  add_trip : option string;
  add_uType : UType;
  add_userid : Z
}.

Record OnlineRemovePackage := {
  rem_nick : string;
  rem_time : Z;
  rem_userid : Z
}.

Record OnlineSetPackage := {
  set_channel : string;
  set_nicks : list string;
  set_time : Z;
  set_users : list User
}.

Record UpdateUserPackage := {
  upd_channel : option string;
  upd_color : Color;
  upd_hash : option string;
  upd_isBot : option bool;
  upd_level : option Z;
  upd_nick : option string;
  upd_time : option Z;
  upd_trip : option string;
  upd_uType : option UType;
  upd_userid : option Z
}.

Record WarnPackage := { warn_text : string }.

Record WhisperPackage := {
  wh_channel : string;
  wh_nick : string;
  wh_text : string;
  wh_content : string;
  wh_time : Z;
  wh_userid_to : Z;
  wh_trip : option string
}.

Record UpdateMessagePackage := {
  um_channel : string;
  um_customId : string;
  um_level : Z;
  um_mode : EditMode;
  um_text : string;
  um_time : Z;
  um_userid : Z
}.

Record ChangeNickPackage := {
  cn_old_nick : string;
  cn_new_nick : string;
  cn_text : string;
  cn_channel : string;
  cn_time : Z
}.

Record CaptchaPackage := {
  cap_channel : string;
  cap_text : string;
  cap_time : Z
}.

Record LockroomPackage := { lock_time : Z }.

Record WhisperSentPackage := {
  ws_channel : string;
  ws_userid_from : Z;
  ws_text : string;
  ws_content : string;
  ws_time : Z;
  ws_userid_to : Z;
  ws_type : string
}.

Record UncatchedPackage := { rawjson : envelope }.

Record RateLimitedPackage := {
  rl_type : RLType;
  rl_text : string
}.

Inductive Event :=
  | EvChat (p : ChatPackage)
  | EvEmote (p : EmotePackage)
  | EvInfo (p : InfoPackage)
  | EvInvite (p : InvitePackage)
  | EvOnlineAdd (p : OnlineAddPackage)
  | EvOnlineRemove (p : OnlineRemovePackage)
  | EvOnlineSet (p : OnlineSetPackage)
  | EvUpdateUser (p : UpdateUserPackage)
  | EvWarn (p : WarnPackage)
  | EvWhisper (p : WhisperPackage)
  | EvUpdateMessage (p : UpdateMessagePackage)
  | EvChangeNick (p : ChangeNickPackage)
  | EvCaptcha (p : CaptchaPackage)
  | EvLockroom (p : LockroomPackage)
  | EvWhisperSent (p : WhisperSentPackage)
  | EvUncatched (p : UncatchedPackage)
  | EvRateLimited (p : RateLimitedPackage).

(** The class of an event: the key of its type-specific handlers. *)
Inductive PackageType :=
  | TChat | TEmote | TInfo | TInvite | TOnlineAdd | TOnlineRemove
  | TOnlineSet | TUpdateUser | TWarn | TWhisper | TUpdateMessage
  | TChangeNick | TCaptcha | TLockroom | TWhisperSent | TUncatched
  | TRateLimited.

Definition type_of (ev : Event) : PackageType :=
  match ev with
  | EvChat _ => TChat | EvEmote _ => TEmote | EvInfo _ => TInfo
  | EvInvite _ => TInvite | EvOnlineAdd _ => TOnlineAdd
  | EvOnlineRemove _ => TOnlineRemove | EvOnlineSet _ => TOnlineSet
  | EvUpdateUser _ => TUpdateUser | EvWarn _ => TWarn
  | EvWhisper _ => TWhisper | EvUpdateMessage _ => TUpdateMessage
  | EvChangeNick _ => TChangeNick | EvCaptcha _ => TCaptcha
  | EvLockroom _ => TLockroom | EvWhisperSent _ => TWhisperSent
  | EvUncatched _ => TUncatched | EvRateLimited _ => TRateLimited
  end.

(** ** Model constructors called with the envelope as keyword arguments

    [g] reads a keyword argument; the result is [None] when pydantic raises
    its [ValidationError]. *)

Section Models.
Context {lax : LaxCoercion}.

Definition mk_User (g : string → option json) : option User :=
  channel ← opt g "channel" v_str;
  color ← req g "color" v_color;
  hash ← req g "hash" v_str;
  isBot ← req g "isBot" v_bool;
  isme ← req g "isme" v_bool;
  level ← req g "level" v_int;
  nick ← req g "nick" v_str;
  trip ← opt g "trip" v_str;
  uType ← req g "uType" v_utype;
  userid ← req g "userid" v_int;
  Some {| u_channel := channel; u_color := color; u_hash := hash;
          u_isBot := isBot; u_isme := isme; u_level := level;
          u_nick := nick; u_trip := trip; u_uType := uType;
          u_userid := userid |}.

Definition v_user (j : json) : option User :=
  match j with
  | JObj o => mk_User (obj_get o)
  | _ => None
  end.

Definition mk_Chat (g : string → option json) : option ChatPackage :=
  _ ← req g "cmd" (v_lit "chat");
  channel ← req g "channel" v_str;
  color ← opt g "color" v_str;
  level ← req g "level" v_int;
  nick ← req g "nick" v_str;
  text ← req g "text" v_str;
  time ← req g "time" v_int;
  trip ← opt g "trip" v_str;
  uType ← req g "uType" v_utype;
  userid ← req g "userid" v_int;
  customId ← opt g "customId" v_str;
  Some {| chat_channel := channel; chat_color := color; chat_level := level;
          chat_nick := nick; chat_text := text; chat_time := time;
          chat_trip := trip; chat_uType := uType; chat_userid := userid;
          chat_customId := customId |}.

Definition mk_Emote (g : string → option json) : option EmotePackage :=
  channel ← req g "channel" v_str;
  _ ← req g "cmd" (v_lit "emote");
  nick ← req g "nick" v_str;
  text ← req g "text" v_str;
  content ← req g "content" v_str;
  time ← req g "time" v_int;
  trip ← opt g "trip" v_str;
  userid ← req g "userid" v_int;
  Some {| emote_channel := channel; emote_nick := nick; emote_text := text;
          emote_content := content; emote_time := time; emote_trip := trip;
          emote_userid := userid |}.

Definition mk_Info (g : string → option json) : option InfoPackage :=
  _ ← req g "cmd" (v_lit "info");
  text ← req g "text" v_str;
  Some {| info_text := text |}.

Definition mk_Invite (g : string → option json) : option InvitePackage :=
  channel ← req g "channel" v_str;
  _ ← req g "cmd" (v_lit "invite");
  from_nick ← req g "from" v_str;
  invite_channel ← req g "inviteChannel" v_str;
  text ← req g "text" v_str;
  time ← req g "time" v_int;
  to_userid ← req g "to_userid" v_int;
  _ ← req g "type" (v_lit "invite");
  Some {| inv_channel := channel; inv_from_nick := from_nick;
          inv_invite_channel := invite_channel; inv_text := text;
          inv_time := time; inv_to_userid := to_userid |}.

Definition mk_OnlineAdd (g : string → option json) : option OnlineAddPackage :=
  channel ← opt g "channel" v_str;
  _ ← req g "cmd" (v_lit "onlineAdd");
  color ← req g "color" v_color;
  hash ← req g "hash" v_str;
  isBot ← req g "isBot" v_bool;
  level ← req g "level" v_int;
  nick ← req g "nick" v_str;
  time ← req g "time" v_int;
  trip ← opt g "trip" v_str;
  uType ← req g "uType" v_utype;
  userid ← req g "userid" v_int;
  Some {| add_channel := channel; add_color := color; add_hash := hash;
          add_isBot := isBot; add_level := level; add_nick := nick;
          add_time := time; add_trip := trip; add_uType := uType;
          add_userid := userid |}.

Definition mk_OnlineRemove (g : string → option json) : option OnlineRemovePackage :=
  nick ← req g "nick" v_str;
  _ ← req g "cmd" (v_lit "onlineRemove");
  time ← req g "time" v_int;
  userid ← req g "userid" v_int;
  Some {| rem_nick := nick; rem_time := time; rem_userid := userid |}.

Definition mk_OnlineSet (g : string → option json) : option OnlineSetPackage :=
  _ ← req g "cmd" (v_lit "onlineSet");
  channel ← req g "channel" v_str;
  nicks ← req g "nicks" (v_list v_str);
  time ← req g "time" v_int;
  users ← req g "users" (v_list v_user);
  Some {| set_channel := channel; set_nicks := nicks; set_time := time;
          set_users := users |}.

Definition mk_UpdateUser (g : string → option json) : option UpdateUserPackage :=
  channel ← opt g "channel" v_str;
  _ ← req g "cmd" (v_lit "updateUser");
  color ← req g "color" v_color;
  hash ← opt g "hash" v_str;
  isBot ← opt g "isBot" v_bool;
  level ← opt g "level" v_int;
  nick ← opt g "nick" v_str;
  time ← opt g "time" v_int;
  trip ← opt g "trip" v_str;
  uType ← opt g "uType" v_utype;
  userid ← opt g "userid" v_int;
  Some {| upd_channel := channel; upd_color := color; upd_hash := hash;
          upd_isBot := isBot; upd_level := level; upd_nick := nick;
          upd_time := time; upd_trip := trip; upd_uType := uType;
          upd_userid := userid |}.

Definition mk_Warn (g : string → option json) : option WarnPackage :=
  _ ← req g "cmd" (v_lit "warn");
  text ← req g "text" v_str;
  Some {| warn_text := text |}.

Definition mk_Whisper (g : string → option json) : option WhisperPackage :=
  channel ← req g "channel" v_str;
  _ ← req g "cmd" (v_lit "info");
  nick ← req g "from" v_str;
  text ← req g "text" v_str;
  content ← req g "content" v_str;
  time ← req g "time" v_int;
  userid_to ← req g "userid_to" v_int;
  trip ← opt g "trip" v_str;
  _ ← req g "type" (v_lit "whisper");
  Some {| wh_channel := channel; wh_nick := nick; wh_text := text;
          wh_content := content; wh_time := time;
          wh_userid_to := userid_to; wh_trip := trip |}.

Definition mk_UpdateMessage (g : string → option json) : option UpdateMessagePackage :=
  channel ← req g "channel" v_str;
  _ ← req g "cmd" (v_lit "updateMessage");
  customId ← req g "customId" v_str;
  level ← req g "level" v_int;
  mode ← req g "mode" v_mode;
  text ← req g "text" v_str;
  time ← req g "time" v_int;
  userid ← req g "userid" v_int;
  Some {| um_channel := channel; um_customId := customId; um_level := level;
          um_mode := mode; um_text := text; um_time := time;
          um_userid := userid |}.

Definition mk_ChangeNick (g : string → option json) : option ChangeNickPackage :=
  old_nick ← req g "old_nick" v_str;
  new_nick ← req g "new_nick" v_str;
  text ← req g "text" v_str;
  _ ← req g "cmd" (v_lit "changenick");
  channel ← req g "channel" v_str;
  time ← req g "time" v_int;
  Some {| cn_old_nick := old_nick; cn_new_nick := new_nick; cn_text := text;
          cn_channel := channel; cn_time := time |}.

Definition mk_Captcha (g : string → option json) : option CaptchaPackage :=
  channel ← req g "channel" v_str;
  _ ← req g "cmd" (v_lit "captcha");
  text ← req g "text" v_str;
  time ← req g "time" v_int;
  Some {| cap_channel := channel; cap_text := text; cap_time := time |}.

Definition mk_Lockroom (g : string → option json) : option LockroomPackage :=
  _ ← req g "cmd" (v_lit "info");
  time ← req g "time" v_int;
  Some {| lock_time := time |}.

(** [type: str = "whisper"] is the one field with a default other than
    [None]. *)
Definition mk_WhisperSent (g : string → option json) : option WhisperSentPackage :=
  channel ← req g "channel" v_str;
  _ ← req g "cmd" (v_lit "info");
  userid_from ← req g "from" v_int;
  text ← req g "text" v_str;
  content ← req g "content" v_str;
  time ← req g "time" v_int;
  userid_to ← req g "to" v_int;
  type ← match g "type" with None => Some "whisper" | Some j => v_str j end;
  Some {| ws_channel := channel; ws_userid_from := userid_from;
          ws_text := text; ws_content := content; ws_time := time;
          ws_userid_to := userid_to; ws_type := type |}.

End Models.

Arguments mk_User : simpl never.
Arguments mk_Chat : simpl never.
Arguments mk_Emote : simpl never.
Arguments mk_Info : simpl never.
Arguments mk_Invite : simpl never.
Arguments mk_OnlineAdd : simpl never.
Arguments mk_OnlineRemove : simpl never.
Arguments mk_OnlineSet : simpl never.
Arguments mk_UpdateUser : simpl never.
Arguments mk_Warn : simpl never.
Arguments mk_Whisper : simpl never.
Arguments mk_UpdateMessage : simpl never.
Arguments mk_ChangeNick : simpl never.
Arguments mk_Captcha : simpl never.
Arguments mk_Lockroom : simpl never.
Arguments mk_WhisperSent : simpl never.

(** ** The envelope classifier ([json_to_object])

    The function reads and writes the dict it is given, and may raise: a
    computation [M A] takes the envelope and returns a result together with
    the envelope as the call leaves it. *)

Definition M (A : Type) : Type := envelope → Result A * envelope.

Definition ret {A} (a : A) : M A := λ d, (Ok a, d).
Definition raise {A} (e : PyExc) : M A := λ d, (Raise e, d).
Definition bind {A B} (m : M A) (k : A → M B) : M B :=
  λ d, match m d with
       | (Ok a, d') => k a d'
       | (Raise e, d') => (Raise e, d')
       end.
Definition lift {A} (r : Result A) : M A := λ d, (r, d).

Notation "'let*' x ':=' m 'in' k" := (bind m (λ x, k))
  (at level 10, x pattern, m at level 100, k at level 200).

(** [data.get(k)], [data.get(k, "")], [data[k]], [data[k] = v], [del data[k]] *)
Definition get (k : string) : M (option json) := λ d, (Ok (d !! k), d).
Definition get_or_empty (k : string) : M json :=
  λ d, (Ok (default (JStr "") (d !! k)), d).
Definition getitem (k : string) : M json :=
  λ d, match d !! k with
       | Some j => (Ok j, d)
       | None => (Raise KeyError, d)
       end.
Definition setitem (k : string) (v : json) : M unit := λ d, (Ok tt, <[k:=v]> d).
Definition delitem (k : string) : M unit :=
  λ d, match d !! k with
       | Some _ => (Ok tt, delete k d)
       | None => (Raise KeyError, d)
       end.

(** A model built from the whole envelope, and from explicit keywords. *)
Definition construct {A} (mk : (string → option json) → option A) : M A :=
  λ d, (match mk (λ k, d !! k) with
        | Some a => Ok a
        | None => Raise ValidationError
        end, d).
Definition construct_kw {A} (kw : list (string * json))
    (mk : (string → option json) → option A) : M A :=
  lift (match mk (obj_get kw) with
        | Some a => Ok a
        | None => Raise ValidationError
        end).

(** [a and b], the right operand evaluated only when the left one holds. *)
Definition and_then (a b : M bool) : M bool :=
  let* x := a in if x then b else ret false.

Definition LOCKROOM_TEXT : string :=
  "You have been denied access to that channel and have been moved somewhere else. Retry later or wait for a mod to move you.".

Definition CHANNEL_RL_TEXT : string :=
  "You are joining channels too fast. Wait a moment and try again.".
Definition COLOR_RL_TEXT : string :=
  "You are changing colors too fast. Wait a moment before trying again.".
Definition INVITE_RL_TEXT : string :=
  "You are sending invites too fast. Wait a moment before trying again.".
Definition CHANGENICK_RL_TEXT : string :=
  "You are changing nicknames too fast. Wait a moment before trying again.".
Definition MESSAGE_RL_TEXT : string :=
  "You are sending too much text. Wait a moment and try again."
  +:+ String (ascii_of_nat 10)
        "Press the up arrow key to restore your last message.".
Definition GLOBAL_RL_TEXT : string := "You are rate-limited or blocked.".

(** The dict [RL_MAPPING]: five entries. *)
Definition RL_MAPPING (s : string) : option RLType :=
  if String.eqb s CHANNEL_RL_TEXT then Some CHANNEL_RL
  else if String.eqb s COLOR_RL_TEXT then Some COLOR_RL
  else if String.eqb s CHANGENICK_RL_TEXT then Some CHANGENICK_RL
  else if String.eqb s MESSAGE_RL_TEXT then Some MESSAGE_RL
  else if String.eqb s GLOBAL_RL_TEXT then Some GLOBAL_RL
  else None.

(** The list literal tested by the [warn] branch: six entries. *)
Definition rate_limit_texts : list string :=
  [CHANNEL_RL_TEXT; COLOR_RL_TEXT; INVITE_RL_TEXT; CHANGENICK_RL_TEXT;
   MESSAGE_RL_TEXT; GLOBAL_RL_TEXT].

(** [data.get("text") in [...]]: the string found, if any. *)
Definition in_rate_limit_texts (o : option json) : option string :=
  match o with
  | Some (JStr s) =>
      if existsb (String.eqb s) rate_limit_texts then Some s else None
  | _ => None
  end.

Section Classifier.
Context {lax : LaxCoercion}.

(** The four-part test for ["Old is now New"]. *)
Definition looks_like_change_nick : M bool :=
  and_then
    (let* t := get_or_empty "text" in
     let* n := lift (j_count_space t) in
     ret (n =? 3)%nat)
 (and_then
    (let* t := get_or_empty "text" in
     let* ps := lift (j_split1 " " t) in
     let* p := lift (py_index ps 1) in
     ret (PyStr.startswith p "is now"))
 (and_then
    (let* t := get_or_empty "text" in
     let* ws := lift (j_split_ws t) in
     let* w := lift (py_index ws 0) in
     ret (verifyNick w))
    (let* t := get_or_empty "text" in
     let* ws := lift (j_split_ws t) in
     let* w := lift (py_index ws 3) in
     ret (verifyNick w)))).

Definition uncatched : M Event :=
  λ d, (Ok (EvUncatched {| rawjson := d |}), d).

Definition classify_info : M Event :=
  let* ty := get "type" in
  if py_not ty then
    let* change := looks_like_change_nick in
    if change then
      let* t := get_or_empty "text" in
      let* ps := lift (j_split_char t) in
      let* old := lift (py_index ps 0) in
      let* _ := setitem "old_nick" (JStr old) in
      let* t := get_or_empty "text" in
      let* ps := lift (j_split_char t) in
      let* new := lift (py_index ps 3) in
      let* _ := setitem "new_nick" (JStr new) in
      let* p := construct mk_ChangeNick in
      ret (EvChangeNick p)
    else
      let* t := get_or_empty "text" in
      if eq_str t LOCKROOM_TEXT then
        let* time := getitem "time" in
        let* p := construct_kw [("cmd", JStr "info"); ("time", time)] mk_Lockroom in
        ret (EvLockroom p)
      else
        let* p := construct mk_Info in
        ret (EvInfo p)
  else if get_is ty "whisper" then
    let* t := get_or_empty "text" in
    let* sent := lift (j_startswith t "You whispered to") in
    if sent then
      let* t := getitem "text" in
      let* ps := lift (j_split1 ": " t) in
      let* c := lift (py_index ps 1) in
      let* _ := setitem "content" (JStr c) in
      let* p := construct mk_WhisperSent in
      ret (EvWhisperSent p)
    else
      let* to := getitem "to" in
      let* _ := setitem "userid_to" to in
      let* _ := delitem "to" in
      let* t := getitem "text" in
      let* ps := lift (j_split1 ": " t) in
      let* c := lift (py_index ps 1) in
      let* _ := setitem "content" (JStr c) in
      let* p := construct mk_Whisper in
      ret (EvWhisper p)
  else if get_is ty "invite" then
    let* from := getitem "from" in
    let* _ := setitem "from_nick" from in
    let* to := getitem "to" in
    let* _ := setitem "to_userid" to in
    let* _ := delitem "from" in
    let* _ := delitem "to" in
    let* p := construct mk_Invite in
    ret (EvInvite p)
  else uncatched.

Definition classify_warn : M Event :=
  let* t := get "text" in
  match in_rate_limit_texts t with
  | Some s =>
      match RL_MAPPING s with
      | Some ty => ret (EvRateLimited {| rl_type := ty; rl_text := s |})
      | None => raise KeyError
      end
  | None =>
      let* p := construct mk_Warn in
      ret (EvWarn p)
  end.

Definition json_to_object : M Event :=
  let* c := get "cmd" in
  if py_not c then raise ValueError
  else
    let* command := get "cmd" in
    if get_is command "chat" then
      let* p := construct mk_Chat in ret (EvChat p)
    else if get_is command "emote" then
      let* t := getitem "text" in
      let* ps := lift (j_split1 " " t) in
      let* content := lift (py_index ps 1) in
      let* _ := setitem "content" (JStr content) in
      let* p := construct mk_Emote in
      ret (EvEmote p)
    else if get_is command "info" then classify_info
    else if get_is command "onlineSet" then
      let* p := construct mk_OnlineSet in ret (EvOnlineSet p)
    else if get_is command "onlineAdd" then
      let* p := construct mk_OnlineAdd in ret (EvOnlineAdd p)
    else if get_is command "onlineRemove" then
      let* p := construct mk_OnlineRemove in ret (EvOnlineRemove p)
    else if get_is command "updateUser" then
      let* p := construct mk_UpdateUser in ret (EvUpdateUser p)
    else if get_is command "updateMessage" then
      let* p := construct mk_UpdateMessage in ret (EvUpdateMessage p)
    else if get_is command "captcha" then
      let* p := construct mk_Captcha in ret (EvCaptcha p)
    else if get_is command "warn" then classify_warn
    else uncatched.

End Classifier.

(** One instance of [LaxCoercion], for evaluating the classifier on concrete
    envelopes: an [int] field takes a boolean as 0 or 1 and a [bool] field
    takes the integers 0 and 1.  The statements below that quantify over
    envelopes hold for every instance. *)
Definition json_native : LaxCoercion := {|
  lax_int j := match j with JBool b => Some (if b then 1 else 0)%Z | _ => None end;
  lax_bool j :=
    match j with
    | JInt 0 => Some false
    | JInt 1 => Some true
    | _ => None
    end
|}.

(** ** The bot ([hvicorn/bot/client.py])

    A registered callable is known by its identity, a number; what a
    callable does when called is the parameter [Behaviour] of the dispatch
    engine.  [internal] is [Bot._internal_handler]. *)

Definition handler := nat.
Definition internal : handler := 0.

(** Keys of [Bot.event_functions]: a string (["__GLOBAL__"], ["disconnect"])
    or an event class. *)
Inductive Selector :=
  | SelName (s : string)
  | SelType (t : PackageType).

Definition GLOBAL : Selector := SelName "__GLOBAL__".

#[global] Instance PackageType_eq_dec : EqDecision PackageType.
Proof. solve_decision. Defined.

Definition PackageType_to_nat (t : PackageType) : nat :=
  match t with
  | TChat => 0 | TEmote => 1 | TInfo => 2 | TInvite => 3 | TOnlineAdd => 4
  | TOnlineRemove => 5 | TOnlineSet => 6 | TUpdateUser => 7 | TWarn => 8
  | TWhisper => 9 | TUpdateMessage => 10 | TChangeNick => 11
  | TCaptcha => 12 | TLockroom => 13 | TWhisperSent => 14
  | TUncatched => 15 | TRateLimited => 16
  end.

Definition PackageType_of_nat (n : nat) : PackageType :=
  match n with
  | 0 => TChat | 1 => TEmote | 2 => TInfo | 3 => TInvite | 4 => TOnlineAdd
  | 5 => TOnlineRemove | 6 => TOnlineSet | 7 => TUpdateUser | 8 => TWarn
  | 9 => TWhisper | 10 => TUpdateMessage | 11 => TChangeNick
  | 12 => TCaptcha | 13 => TLockroom | 14 => TWhisperSent
  | 15 => TUncatched | _ => TRateLimited
  end.

#[global] Instance PackageType_countable : Countable PackageType.
Proof.
  apply (inj_countable' PackageType_to_nat PackageType_of_nat).
  intros []; reflexivity.
Defined.

#[global] Instance Selector_eq_dec : EqDecision Selector.
Proof. solve_decision. Defined.

#[global] Instance Selector_countable : Countable Selector.
Proof.
  apply (inj_countable'
           (λ s, match s with SelName x => inl x | SelType t => inr t end)
           (λ s, match s with inl x => SelName x | inr t => SelType t end)).
  intros []; reflexivity.
Defined.

#[global] Instance User_eq_dec : EqDecision User.
Proof. solve_decision. Defined.

(** *** Python dicts whose iteration order matters

    [Bot.commands] is walked with [items()], so it is kept as the list of its
    items in insertion order, keys unique. *)

Module PyDict.
Section Ops.
Context {V : Type}.
Implicit Types d : list (string * V).

Definition keys d : list string := d.*1.

Definition mem (k : string) d : bool := bool_decide (k ∈ keys d).

Fixpoint get (k : string) d : option V :=
  match d with
  | [] => None
  | (k', v) :: d' => if decide (k' = k) then Some v else get k d'
  end.

(** [d[k] = v]: an existing key keeps its place. *)
Fixpoint set (k : string) (v : V) d : list (string * V) :=
  match d with
  | [] => [(k, v)]
  | (k', v') :: d' =>
      if decide (k' = k) then (k, v) :: d' else (k', v') :: set k v d'
  end.

(** [del d[k]] *)
Definition del (k : string) d : list (string * V) :=
  filter (λ kv, kv.1 ≠ k) d.
End Ops.
End PyDict.

(** What [load_plugin] stores under a plugin's name. *)
Record Plugin := {
  pl_commands : list string;
  pl_handlers : gmap Selector (list handler)
}.

Record Bot := {
  nick : string;
  users : list User;
  commands : list (string * handler);
  event_functions : gmap Selector (list handler);
  loaded_plugins : gmap string Plugin;
  killed : bool
}.

Definition with_users (us : list User) (b : Bot) : Bot :=
  {| nick := nick b; users := us; commands := commands b;
     event_functions := event_functions b;
     loaded_plugins := loaded_plugins b; killed := killed b |}.
Definition with_commands (cs : list (string * handler)) (b : Bot) : Bot :=
  {| nick := nick b; users := users b; commands := cs;
     event_functions := event_functions b;
     loaded_plugins := loaded_plugins b; killed := killed b |}.
Definition with_event_functions (ef : gmap Selector (list handler)) (b : Bot) : Bot :=
  {| nick := nick b; users := users b; commands := commands b;
     event_functions := ef;
     loaded_plugins := loaded_plugins b; killed := killed b |}.
Definition with_loaded_plugins (lp : gmap string Plugin) (b : Bot) : Bot :=
  {| nick := nick b; users := users b; commands := commands b;
     event_functions := event_functions b;
     loaded_plugins := lp; killed := killed b |}.
Definition with_killed (k : bool) (b : Bot) : Bot :=
  {| nick := nick b; users := users b; commands := commands b;
     event_functions := event_functions b;
     loaded_plugins := loaded_plugins b; killed := k |}.

(** [Bot.__init__] *)
Definition new_bot (n : string) : Bot :=
  {| nick := n; users := []; commands := [];
     event_functions := {[ GLOBAL := [internal] ]};
     loaded_plugins := ∅; killed := false |}.

(** *** Registration *)

Definition register_event_function (event_type : Selector) (function : handler)
    (b : Bot) : Bot :=
  match event_functions b !! event_type with
  | Some fs => with_event_functions (<[event_type := fs ++ [function]]> (event_functions b)) b
  | None => with_event_functions (<[event_type := [function]]> (event_functions b)) b
  end.

Definition register_global_function (function : handler) (b : Bot) : Bot :=
  register_event_function GLOBAL function b.

(** An existing prefix is overridden (with a warning, not modelled). *)
Definition register_command (prefix : string) (function : handler) (b : Bot) : Bot :=
  with_commands (PyDict.set prefix function (commands b)) b.

(** *** The session directory *)

(** [get_users_by("nick", n)] and [get_user_by_nick(n)] *)
Definition get_users_by_nick (us : list User) (n : string) : list User :=
  filter (λ u, u_nick u = n) us.

Definition get_user_by_nick (us : list User) (n : string) : option User :=
  head (get_users_by_nick us n).

(** [l.remove(x)]: the first element equal to [x] goes. *)
Fixpoint list_remove_first {A} `{EqDecision A} (x : A) (l : list A) : list A :=
  match l with
  | [] => []
  | y :: l' => if decide (y = x) then l' else y :: list_remove_first x l'
  end.

(** The object [get_user_by_nick] returns is the first entry of the roster
    with that nickname; [f] is what is done to it in place. *)
Fixpoint update_first (n : string) (f : User → User) (us : list User) : list User :=
  match us with
  | [] => []
  | u :: us' =>
      if decide (u_nick u = n) then f u :: us' else u :: update_first n f us'
  end.

(** One turn of the loop over [event.model_dump().items()] for a key [k] that
    is an attribute of [User]: [v != None and v != target.k] guards
    [target.k = v]. *)
Definition upd_attr {V} `{EqDecision V} (v : option V) (cur : V) : V :=
  match v with
  | Some x => if decide (x = cur) then cur else x
  | None => cur
  end.

(** The whole loop: the keys of the dump are [channel], [cmd], [color],
    [hash], [isBot], [level], [nick], [time], [trip], [uType], [userid];
    [cmd] and [time] are not attributes of [User], and [isme] is not a key. *)
Definition apply_update (p : UpdateUserPackage) (u : User) : User :=
  {| u_channel := upd_attr (Some <$> upd_channel p) (u_channel u);
     u_color := upd_attr (Some (upd_color p)) (u_color u);
     u_hash := upd_attr (upd_hash p) (u_hash u);
     u_isBot := upd_attr (upd_isBot p) (u_isBot u);
     u_isme := u_isme u;
     u_level := upd_attr (upd_level p) (u_level u);
     u_nick := upd_attr (upd_nick p) (u_nick u);
     u_trip := upd_attr (Some <$> upd_trip p) (u_trip u);
     u_uType := upd_attr (upd_uType p) (u_uType u);
     u_userid := upd_attr (upd_userid p) (u_userid u) |}.

(** [if not event.nick: return], then the lookup and the loop. *)
Definition update_user (p : UpdateUserPackage) (us : list User) : list User :=
  match upd_nick p with
  | None => us
  | Some n =>
      if String.eqb n "" then us
      else update_first n (apply_update p) us
  end.

(** *** Handlers and what the engine observes of them

    The engine's trace lists the calls it makes and the warnings it logs.  A
    handler is taken as a unit: it runs to its end when called or when its
    task runs, and it leaves the registries and the roster alone while an
    event is being dispatched. *)

Inductive Via := via_chat | via_whisper.

Record CommandContext := {
  ctx_sender : User;
  ctx_triggered_via : Via;
  ctx_text : string;
  ctx_args : string;
  ctx_event : Event
}.

Inductive Diagnostic :=
  | IgnoredCommandException
  | IgnoredEventException
  | FailedToParse (e : PyExc).

Inductive Entry :=
  | CalledEvent (h : handler) (arg : option Event)
  | CalledCommand (h : handler) (ctx : CommandContext)
  | Warning (d : Diagnostic).

Record Behaviour := {
  (** [asyncio.iscoroutinefunction] *)
  is_coroutine : handler → bool;
  (** whether the call of an event handler ends in an exception *)
  event_raises : handler → option Event → bool;
  (** whether the awaited call of a command ends in an exception *)
  command_raises : handler → CommandContext → bool
}.

Section Dispatch.
Context (B : Behaviour).

(** *** The command router: one turn of [for command in commands.items()] *)
Definition matches (text prefix : string) : bool :=
  PyStr.startswith text (prefix +:+ " ") || String.eqb text prefix.

Definition command_args (text prefix : string) : Result string :=
  if negb (String.eqb text prefix) then py_index (PyStr.split1 " " text) 1
  else Ok "".

Definition route_one (us : list User) (via : Via) (ev : Event)
    (sender text : string) (command : string * handler) : list Entry :=
  if matches text command.1 then
    match get_user_by_nick us sender with
    | None => [Warning IgnoredCommandException]
    | Some u =>
        match command_args text command.1 with
        | Raise _ => [Warning IgnoredCommandException]
        | Ok args =>
            let ctx := {| ctx_sender := u; ctx_triggered_via := via;
                          ctx_text := text; ctx_args := args;
                          ctx_event := ev |} in
            CalledCommand command.2 ctx
              :: (if command_raises B command.2 ctx
                  then [Warning IgnoredCommandException] else [])
        end
    end
  else [].

Definition route (b : Bot) (via : Via) (ev : Event) (sender text : string)
    : list Entry :=
  flat_map (route_one (users b) via ev sender text) (commands b).

(** *** [Bot._internal_handler] *)
Definition internal_handler (ev : Event) (b : Bot) : Bot * list Entry :=
  let b1 :=
    match ev with
    | EvOnlineSet p => with_users (set_users p) b
    | EvOnlineAdd p =>
        with_users
          (users b ++
             [{| u_channel := add_channel p; u_color := add_color p;
                 u_hash := add_hash p; u_isBot := add_isBot p;
                 u_isme := false; u_level := add_level p;
                 u_nick := add_nick p; u_trip := add_trip p;
                 u_uType := add_uType p; u_userid := add_userid p |}]) b
    | EvOnlineRemove p =>
        match get_user_by_nick (users b) (rem_nick p) with
        | Some u => with_users (list_remove_first u (users b)) b
        | None => b
        end
    | _ => b
    end in
  let t1 :=
    match ev with
    | EvChat p => route b1 via_chat ev (chat_nick p) (chat_text p)
    | _ => []
    end in
  let t2 :=
    match ev with
    | EvWhisper p => route b1 via_whisper ev (wh_nick p) (wh_content p)
    | _ => []
    end in
  let b2 :=
    match ev with
    | EvUpdateUser p => with_users (update_user p (users b1)) b1
    | _ => b1
    end in
  (b2, t1 ++ t2).

(** *** The dispatch engine

    [tasks] are the tasks created in the task group and not yet run: the
    loop of [run] suspends only in [recv], and there they run, in the
    order of their creation. *)
Inductive Status := Running | Stopped | Crashed.

Record Engine := {
  bot : Bot;
  tasks : list (handler * option Event);
  trace : list Entry;
  status : Status
}.

Definition is_coro (h : handler) : bool :=
  if decide (h = internal) then true else is_coroutine B h.

(** One turn of the loop of [_run_events]. *)
Definition call_or_schedule (arg : option Event) (e : Engine) (h : handler) : Engine :=
  if is_coro h then
    match decide (h = internal), arg with
    | left _, None =>
        {| bot := bot e; tasks := tasks e;
           trace := trace e ++ [Warning IgnoredEventException];
           status := status e |}
    | _, _ =>
        {| bot := bot e; tasks := tasks e ++ [(h, arg)];
           trace := trace e; status := status e |}
    end
  else
    {| bot := bot e; tasks := tasks e;
       trace := trace e ++ CalledEvent h arg
                  :: (if event_raises B h arg
                      then [Warning IgnoredEventException] else []);
       status := status e |}.

Definition run_events (event_type : Selector) (arg : option Event) (e : Engine) : Engine :=
  foldl (call_or_schedule arg) e
        (default [] (event_functions (bot e) !! event_type)).

(** A task of the group runs.  An exception that leaves it aborts the
    group: once the tasks created along with it have had their turn, the
    loop is cancelled and [run] ends with the error. *)
Definition run_task (e : Engine) (t : handler * option Event) : Engine :=
  if decide (t.1 = internal) then
    match t.2 with
    | Some ev =>
        let r := internal_handler ev (bot e) in
        {| bot := r.1; tasks := tasks e;
           trace := trace e ++ CalledEvent internal t.2 :: r.2;
           status := status e |}
    | None => e
    end
  else
    {| bot := bot e; tasks := tasks e;
       trace := trace e ++ [CalledEvent t.1 t.2];
       status := if event_raises B t.1 t.2 then Crashed else status e |}.

Definition drain (e : Engine) : Engine :=
  foldl run_task
        {| bot := bot e; tasks := []; trace := trace e; status := status e |}
        (tasks e).

(** The test [event.nick == self.nick] on the five classes that have a
    [nick]. *)
Definition nick_of (ev : Event) : option string :=
  match ev with
  | EvChat p => Some (chat_nick p)
  | EvEmote p => Some (emote_nick p)
  | EvOnlineAdd p => Some (add_nick p)
  | EvOnlineRemove p => Some (rem_nick p)
  | EvWhisper p => Some (wh_nick p)
  | _ => None
  end.

Definition is_self (b : Bot) (ev : Event) : bool :=
  match nick_of ev with
  | Some n => String.eqb n (nick b)
  | None => false
  end.

Definition dispatch (ev : Event) (e : Engine) : Engine :=
  run_events (SelType (type_of ev)) (Some ev) (run_events GLOBAL (Some ev) e).

Definition kill (e : Engine) : Engine :=
  {| bot := with_killed true (bot e); tasks := tasks e; trace := trace e;
     status := status e |}.

(** Leaving the [async with] block: the tasks left are awaited. *)
Definition finish (e : Engine) : Engine :=
  let e' := drain e in
  {| bot := bot e'; tasks := tasks e'; trace := trace e';
     status := match status e' with Running => Stopped | s => s end |}.

Definition warn (d : Diagnostic) (e : Engine) : Engine :=
  {| bot := bot e; tasks := tasks e; trace := trace e ++ [Warning d];
     status := status e |}.

End Dispatch.

(** What [recv] does: it hands back a frame holding a JSON object, a frame
    holding another JSON value, a frame that is no JSON text, an empty
    frame, or it raises [ConnectionClosed] or another exception. *)
Inductive Frame :=
  | Data (d : envelope)
  | NotObject
  | NotJson
  | EmptyFrame
  | ConnectionClosed
  | RecvError.

Section Run.
Context {lax : LaxCoercion} (B : Behaviour).

(** The loop waits in [recv]: the tasks created so far run. *)
Definition suspend (e : Engine) : Engine :=
  match status e with
  | Running => drain B e
  | _ => e
  end.

(** An exception leaves the loop and the task group: [run] ends with it. *)
Definition crash (e : Engine) : Engine :=
  {| bot := bot e; tasks := tasks e; trace := trace e; status := Crashed |}.

(** One turn of the loop of [Bot.run], from [recv] to the next [recv].  An
    exception of [recv] other than [ConnectionClosed] is raised again as
    [RuntimeError]; [loads] is called outside the [try], so what it raises
    ends the run; a JSON value that is no object has no [get], which
    [json_to_object] finds out inside the [try]. *)
Definition on_frame (ignore_self : bool) (e : Engine) (f : Frame) : Engine :=
  let e1 := suspend e in
  match status e1 with
  | Running =>
      match f with
      | ConnectionClosed =>
          finish B (run_events B (SelName "disconnect") None (kill e1))
      | RecvError => crash e1
      | EmptyFrame => finish B (kill e1)
      | NotJson => crash e1
      | NotObject => warn (FailedToParse AttributeError) e1
      | Data d =>
          match (json_to_object d).1 with
          | Raise x => warn (FailedToParse x) e1
          | Ok ev =>
              if is_self (bot e1) ev && ignore_self then e1
              else dispatch B ev e1
          end
      end
  | _ => e1
  end.

Definition start (b : Bot) : Engine :=
  {| bot := b; tasks := []; trace := []; status := Running |}.

(** [Bot.run] over the frames received so far. *)
Definition run (ignore_self : bool) (b : Bot) (frames : list Frame) : Engine :=
  foldl (on_frame ignore_self) (start b) frames.

End Run.

(** ** The plugin manager *)

(** An initializer is arbitrary code run on the bot: the bot as the call
    leaves it, and [true] unless the call raised. *)
Definition Initializer : Type := Bot → Bot * bool.

(** What [__import__(plugin_name)] finds, where it returns or raises
    [ImportError]; any other exception of the import leaves [load_plugin]
    as it is raised. *)
Inductive Imported :=
  | ImportError
  | NoPluginInit
  | NotCallable
  | PluginInit (init : Initializer).

(** [list(commands_after - commands_before)]; the order of a set is not
    specified, the order of the dict is taken. *)
Definition new_commands (before after : list string) : list string :=
  filter (λ k, k ∉ before) after.

(** The loop that fills [new_handlers]. *)
Definition new_handlers (before : gmap Selector nat)
    (ef : gmap Selector (list handler)) : gmap Selector (list handler) :=
  map_imap (λ event_type handlers,
              let before_count := default 0 (before !! event_type) in
              if decide (before_count < length handlers)
              then Some (drop before_count handlers)
              else None) ef.

Definition load_plugin (modules : string → Imported) (plugin_name : string)
    (init_function : option Initializer) (b : Bot) : Bot :=
  let commands_before := PyDict.keys (commands b) in
  let event_handlers_before := length <$> event_functions b in
  let init :=
    match init_function with
    | Some f => Some f
    | None =>
        match modules plugin_name with
        | PluginInit f => Some f
        | _ => None
        end
    end in
  match init with
  | None => b
  | Some f =>
      let r := f b in
      if r.2 then
        let commands_after := PyDict.keys (commands r.1) in
        with_loaded_plugins
          (<[plugin_name :=
               {| pl_commands := new_commands commands_before commands_after;
                  pl_handlers :=
                    new_handlers event_handlers_before (event_functions r.1) |}]>
             (loaded_plugins r.1)) r.1
      else r.1
  end.

(** The two loops of [unload_plugin]. *)
Definition unregister_commands (recorded : list string)
    (cs : list (string * handler)) : list (string * handler) :=
  foldl (λ cs command, if PyDict.mem command cs then PyDict.del command cs else cs)
        cs recorded.

Definition remove_handlers (recorded fs : list handler) : list handler :=
  foldl (λ fs h, if bool_decide (h ∈ fs) then list_remove_first h fs else fs)
        fs recorded.

Definition unregister_handlers (recorded : gmap Selector (list handler))
    (ef : gmap Selector (list handler)) : gmap Selector (list handler) :=
  map_fold (λ event_type handlers ef,
              match ef !! event_type with
              | Some fs => <[event_type := remove_handlers handlers fs]> ef
              | None => ef
              end) ef recorded.

Definition unload_plugin (plugin_name : string) (b : Bot) : Bot :=
  match loaded_plugins b !! plugin_name with
  | None => b
  | Some plugin_info =>
      let b1 := with_commands (unregister_commands (pl_commands plugin_info) (commands b)) b in
      let b2 := with_event_functions
                  (unregister_handlers (pl_handlers plugin_info) (event_functions b1)) b1 in
      with_loaded_plugins (delete plugin_name (loaded_plugins b2)) b2
  end.

(** ** Vocabulary of the statements *)

(** The alphabet of nicknames, as ranges of character codes. *)
Definition word_char (c : ascii) : Prop :=
  let x := N_of_ascii c in
  (97 ≤ x ≤ 122 ∨ 65 ≤ x ≤ 90 ∨ 48 ≤ x ≤ 57 ∨ x = 95)%N.

Fixpoint chars (s : string) : list ascii :=
  match s with
  | EmptyString => []
  | String a s' => a :: chars s'
  end.

(** The ten values of [cmd] that [json_to_object] tests for. *)
Definition KNOWN_COMMANDS : list string :=
  ["chat"; "emote"; "info"; "onlineSet"; "onlineAdd"; "onlineRemove";
   "updateUser"; "updateMessage"; "captcha"; "warn"].

Definition known_command (o : option json) : bool :=
  existsb (get_is o) KNOWN_COMMANDS.

(** The keys [json_to_object] may write or delete. *)
Definition SCRATCH_KEYS : list string :=
  ["content"; "old_nick"; "new_nick"; "userid_to"; "to"; "from_nick";
   "to_userid"; "from"].

(** ** Sample envelopes *)

Definition envelope_of (items : list (string * json)) : envelope :=
  list_to_map items.

Definition sample_unknown : envelope :=
  envelope_of [("cmd", JStr "session"); ("restored", JBool true)].

Definition sample_emote_no_space : envelope :=
  envelope_of [("cmd", JStr "emote"); ("channel", JStr "lounge");
               ("nick", JStr "Alice"); ("text", JStr "@Alice");
               ("time", JInt 0); ("userid", JInt 7)].

Definition sample_whisper_no_colon : envelope :=
  envelope_of [("cmd", JStr "info"); ("type", JStr "whisper");
               ("channel", JStr "lounge"); ("from", JStr "Alice");
               ("to", JInt 7); ("text", JStr "Alice whispered"); ("time", JInt 0)].

Definition sample_info_other_type : envelope :=
  envelope_of [("cmd", JStr "info"); ("type", JStr "notice");
               ("text", JStr "hello")].

Definition sample_chat_bad_level : envelope :=
  envelope_of [("cmd", JStr "chat"); ("channel", JStr "lounge");
               ("level", JStr "high"); ("nick", JStr "Alice");
               ("text", JStr "hi"); ("time", JInt 0);
               ("uType", JStr "user"); ("userid", JInt 7)].

Definition sample_whisper : envelope :=
  envelope_of [("cmd", JStr "info"); ("type", JStr "whisper");
               ("channel", JStr "lounge"); ("from", JStr "Alice");
               ("to", JInt 7); ("text", JStr "Alice whispered: hi");
               ("time", JInt 0)].

Definition sample_emote : envelope :=
  envelope_of [("cmd", JStr "emote"); ("channel", JStr "lounge");
               ("nick", JStr "Alice"); ("text", JStr "@Alice waves");
               ("time", JInt 0); ("userid", JInt 7)].

Definition sample_change_nick : envelope :=
  envelope_of [("cmd", JStr "info"); ("channel", JStr "lounge");
               ("time", JInt 0); ("text", JStr "Alice is now Bob_2")].

Definition sample_not_a_change_nick : envelope :=
  envelope_of [("cmd", JStr "info"); ("channel", JStr "lounge");
               ("time", JInt 0);
               ("text", JStr "Alice is now not valid nick!!")].

Definition sample_warn_global : envelope :=
  envelope_of [("cmd", JStr "warn"); ("text", JStr GLOBAL_RL_TEXT)].

Definition sample_warn_invite : envelope :=
  envelope_of [("cmd", JStr "warn"); ("text", JStr INVITE_RL_TEXT)].

Definition sample_warn_other : envelope :=
  envelope_of [("cmd", JStr "warn"); ("text", JStr "Nickname taken")].

Definition sample_chat (n text : string) : envelope :=
  envelope_of [("cmd", JStr "chat"); ("channel", JStr "lounge");
               ("level", JInt 100); ("nick", JStr n); ("text", JStr text);
               ("time", JInt 0); ("uType", JStr "user"); ("userid", JInt 7)].

Definition sample_online_add (n : string) : envelope :=
  envelope_of [("cmd", JStr "onlineAdd"); ("channel", JStr "lounge");
               ("color", JBool false); ("hash", JStr "h"); ("isBot", JBool false);
               ("level", JInt 100); ("nick", JStr n); ("time", JInt 0);
               ("uType", JStr "user"); ("userid", JInt 7)].

(** ** Sample bots and handlers *)

Definition chat_event (n text : string) : Event :=
  EvChat {| chat_channel := "lounge"; chat_color := None; chat_level := 100;
            chat_nick := n; chat_text := text; chat_time := 0;
            chat_trip := None; chat_uType := user; chat_userid := 7;
            chat_customId := None |}.

(** Handlers 1 and 2 are registered for chat messages, after each other;
    handler 1 raises whenever it is called. *)
Definition chat_bot : Bot :=
  register_event_function (SelType TChat) 2
    (register_event_function (SelType TChat) 1 (new_bot "hvicorn")).

Definition first_raises (coroutines : bool) : Behaviour :=
  {| is_coroutine _ := coroutines;
     event_raises h _ := bool_decide (h = 1);
     command_raises _ _ := false |}.

Definition two_chats : list Frame :=
  [Data (sample_chat "Alice" "hi"); Data (sample_chat "Carol" "yo")].

(** Handlers that are all coroutines and never raise. *)
Definition quiet : Behaviour :=
  {| is_coroutine _ := true;
     event_raises _ _ := false;
     command_raises _ _ := false |}.

Definition sample_emote_event : Event :=
  EvEmote {| emote_channel := "lounge"; emote_nick := "Alice";
             emote_text := "@Alice waves"; emote_content := "waves";
             emote_time := 0; emote_trip := None; emote_userid := 7 |}.

(** ** The partial update, in the words of the specification

    Each field present in the update replaces the participant's, an absent
    field leaves it; the self-flag is not part of an update. *)
Definition overlay {V} (v : option V) (cur : V) : V := default cur v.

Definition overlay_user (p : UpdateUserPackage) (u : User) : User :=
  {| u_channel := overlay (Some <$> upd_channel p) (u_channel u);
     u_color := upd_color p;
     u_hash := overlay (upd_hash p) (u_hash u);
     u_isBot := overlay (upd_isBot p) (u_isBot u);
     u_isme := u_isme u;
     u_level := overlay (upd_level p) (u_level u);
     u_nick := overlay (upd_nick p) (u_nick u);
     u_trip := overlay (Some <$> upd_trip p) (u_trip u);
     u_uType := overlay (upd_uType p) (u_uType u);
     u_userid := overlay (upd_userid p) (u_userid u) |}.

(** The participant an update is for: the first of the roster with the
    nickname of the update, when the update has a non-empty one. *)
Definition update_target (p : UpdateUserPackage) (us : list User)
    : option (nat * User) :=
  match upd_nick p with
  | Some n =>
      if String.eqb n "" then None
      else list_find (λ u, u_nick u = n) us
  | None => None
  end.

Definition alice : User :=
  {| u_channel := Some "lounge"; u_color := CBool false; u_hash := "h";
     u_isBot := false; u_isme := false; u_level := 100; u_nick := "Alice";
     u_trip := None; u_uType := user; u_userid := 7 |}.

(** A bot with three commands and Alice on the roster. *)
Definition command_bot : Bot :=
  with_users [alice]
    (register_command "Ping" 3
       (register_command ".hv plugins" 2
          (register_command ".hv plugin" 1 (new_bot "hvicorn")))).

(** ** Sample plugins *)

Definition no_modules : string → Imported := λ _, ImportError.

(** What [example_plugin_afk.plugin_init] registers: a command, a global
    handler and a handler for chat messages. *)
Definition init_afk : Initializer :=
  λ b, (register_event_function (SelType TChat) 22
          (register_global_function 21
             (register_command ".hv afk" 20 b)), true).

(** An initializer that registers two commands and a global handler. *)
Definition init_x : Initializer :=
  λ b, (register_global_function 12
          (register_command "/b" 11
             (register_command "/a" 10 b)), true).

(** An initializer that registers, once more, a function that is a global
    handler already. *)
Definition init_again : Initializer :=
  λ b, (register_global_function 5 b, true).

Definition plugin_base : Bot :=
  load_plugin no_modules "example_plugin_afk" (Some init_afk)
    (register_command "Ping" 1 (new_bot "hvicorn")).

Definition handlers_5_6 : Bot :=
  register_global_function 6 (register_global_function 5 (new_bot "hvicorn")).

(** ** Vocabulary of the further statements *)

(** The classes of event each value of [cmd] can give. *)
Definition classes_of_cmd (command : option json) : list PackageType :=
  if get_is command "chat" then [TChat]
  else if get_is command "emote" then [TEmote]
  else if get_is command "info" then
    [TInfo; TLockroom; TWhisper; TWhisperSent; TUncatched]
  else if get_is command "onlineSet" then [TOnlineSet]
  else if get_is command "onlineAdd" then [TOnlineAdd]
  else if get_is command "onlineRemove" then [TOnlineRemove]
  else if get_is command "updateUser" then [TUpdateUser]
  else if get_is command "updateMessage" then [TUpdateMessage]
  else if get_is command "captcha" then [TCaptcha]
  else if get_is command "warn" then [TWarn; TRateLimited]
  else [TUncatched].

(** Of a whisper event: whether it confirms a whisper sent, its text and its
    content. *)
Definition whisper_parts (ev : Event) : option (bool * string * string) :=
  match ev with
  | EvWhisper p => Some (false, wh_text p, wh_content p)
  | EvWhisperSent p => Some (true, ws_text p, ws_content p)
  | _ => None
  end.

Definition sample_whisper_event : Event :=
  EvWhisper {| wh_channel := "lounge"; wh_nick := "Alice";
               wh_text := "Alice whispered: hi"; wh_content := "hi";
               wh_time := 0; wh_userid_to := 7; wh_trip := None |}.

(** ** Looking users up ([get_users_by], [get_user_by])

    [PyVal] is a value of an attribute of [User], or a value it is compared
    with; [py_eq] is Python's [==] on such values ([True == 1]). *)

Inductive PyVal :=
  | VNone
  | VBool (b : bool)
  | VInt (z : Z)
  | VStr (s : string).

Definition py_eq (a b : PyVal) : bool :=
  match a, b with
  | VNone, VNone => true
  | VBool x, VBool y => Bool.eqb x y
  | VInt x, VInt y => (x =? y)%Z
  | VStr x, VStr y => String.eqb x y
  | VBool x, VInt y => (Z.b2z x =? y)%Z
  | VInt x, VBool y => (x =? Z.b2z y)%Z
  | _, _ => false
  end.

Definition val_of_opt_str (o : option string) : PyVal :=
  match o with Some s => VStr s | None => VNone end.

Definition val_of_color (c : Color) : PyVal :=
  match c with CBool b => VBool b | CStr s => VStr s end.

Definition val_of_utype (t : UType) : PyVal :=
  VStr (match t with user => "user" | mod_ => "mod" | admin => "admin" end).

(** [user.__dict__.get(by)] *)
Definition user_attr (u : User) (by_ : string) : PyVal :=
  if String.eqb by_ "channel" then val_of_opt_str (u_channel u)
  else if String.eqb by_ "color" then val_of_color (u_color u)
  else if String.eqb by_ "hash" then VStr (u_hash u)
  else if String.eqb by_ "isBot" then VBool (u_isBot u)
  else if String.eqb by_ "isme" then VBool (u_isme u)
  else if String.eqb by_ "level" then VInt (u_level u)
  else if String.eqb by_ "nick" then VStr (u_nick u)
  else if String.eqb by_ "trip" then val_of_opt_str (u_trip u)
  else if String.eqb by_ "uType" then val_of_utype (u_uType u)
  else if String.eqb by_ "userid" then VInt (u_userid u)
  else VNone.

(** The argument [matches]: a value, or a callable taking a user. *)
Inductive Matches :=
  | MValue (v : PyVal)
  | MCallable (f : User → bool).

(** The loop of [get_users_by]; [results] is the list built so far. *)
Fixpoint get_users_by_go (by_ : string) (matches : Matches)
    (results : list User) (us : list User) : Result (list User) :=
  match us with
  | [] => Ok results
  | u :: us' =>
      if negb (String.eqb by_ "function") then
        match matches with
        | MValue v =>
            if py_eq (user_attr u by_) v
            then get_users_by_go by_ matches (results ++ [u]) us'
            else get_users_by_go by_ matches results us'
        | MCallable _ => get_users_by_go by_ matches results us'
        end
      else
        match matches with
        | MCallable f =>
            if f u then get_users_by_go by_ matches (results ++ [u]) us'
            else get_users_by_go by_ matches results us'
        | MValue _ => Raise ValueError
        end
  end.

Definition get_users_by (us : list User) (by_ : string) (matches : Matches)
    : Result (list User) :=
  get_users_by_go by_ matches [] us.

(** [result[0] if result else None] *)
Definition get_user_by (us : list User) (by_ : string) (matches : Matches)
    : Result (option User) :=
  match get_users_by us by_ matches with
  | Ok result => Ok (head result)
  | Raise e => Raise e
  end.

(** The names of the attributes of [User]. *)
Definition USER_ATTRIBUTES : list string :=
  ["channel"; "color"; "hash"; "isBot"; "isme"; "level"; "nick"; "trip";
   "uType"; "userid"].

(** The user a join event puts on the roster. *)
Definition user_of_join (p : OnlineAddPackage) : User :=
  {| u_channel := add_channel p; u_color := add_color p;
     u_hash := add_hash p; u_isBot := add_isBot p; u_isme := false;
     u_level := add_level p; u_nick := add_nick p; u_trip := add_trip p;
     u_uType := add_uType p; u_userid := add_userid p |}.

Definition sample_join : OnlineAddPackage :=
  {| add_channel := Some "lounge"; add_color := CBool false; add_hash := "h2";
     add_isBot := false; add_level := 100; add_nick := "Bob"; add_time := 0;
     add_trip := None; add_uType := user; add_userid := 8 |}.

Definition sample_leave (n : string) : OnlineRemovePackage :=
  {| rem_nick := n; rem_time := 1; rem_userid := 8 |}.

(** The handlers an event goes to: those registered under [GLOBAL], then
    those registered under its class. *)
Definition handlers_for (b : Bot) (ev : Event) : list handler :=
  default [] (event_functions b !! GLOBAL)
  ++ default [] (event_functions b !! SelType (type_of ev)).

(** The event handlers a trace shows as called, in the order of the calls. *)
Definition called_events (t : list Entry) : list handler :=
  omap (λ x, match x with CalledEvent h _ => Some h | _ => None end) t.

(** The frames that end the loop of [run] in the regular way, and those
    that end it with an error. *)
Definition is_stop (f : Frame) : bool :=
  match f with EmptyFrame | ConnectionClosed => true | _ => false end.

Definition is_fatal (f : Frame) : bool :=
  match f with NotJson | RecvError => true | _ => false end.

(** A task that does not end in an exception, and an engine that has not
    crashed and holds only such tasks. *)
Definition harmless (B : Behaviour) (t : handler * option Event) : Prop :=
  t.1 ≠ internal → event_raises B t.1 t.2 = false.

Definition sound (B : Behaviour) (e : Engine) : Prop :=
  status e ≠ Crashed ∧ Forall (harmless B) (tasks e).

(** ** The plugins of the repository

    [plugin_init] of [testplugin] and of [example_plugin_afk]: each defines
    its handlers and registers them.  The handlers are closures made by the
    call; here they are the identifiers given. *)

Definition test_plugin_init (command_name : string) (hello : handler)
    : Initializer :=
  λ b, (register_command command_name hello b, true).

Definition afk_plugin_init (command_prefix : string)
    (mark_afk back_check on_chat : handler) : Initializer :=
  λ b, (register_event_function (SelType TChat) on_chat
          (register_global_function back_check
             (register_command command_prefix mark_afk b)), true).

(** An initializer that registers a command and then raises. *)
Definition init_fails : Initializer :=
  λ b, (register_command "/half" 30 b, false).

(** ** What the bot sends

    The requests of [hvicorn/models/client], with the fields in the order
    of their classes; [cmd] has its only value. *)

Inductive Request :=
  | ChatRequest (text : string) (customId : option string)
  | WhisperRequest (nick text : string)
  | EmoteRequest (text : string)
  | ChangeColorRequest (color : string)
  | ChangeNickRequest (nick : string)
  | InviteRequest (nick : string) (to : option string)
  | JoinRequest (nick channel : string) (password : option string)
  | PingRequest
  | UpdateMessageRequest (customId : string) (mode : EditMode)
      (text : option string)
  | CustomRequest (rawjson : list (string * json)).

Definition json_of_opt (o : option string) : json :=
  match o with Some s => JStr s | None => JNull end.

Definition json_of_mode (m : EditMode) : json :=
  JStr (match m with
        | overwrite => "overwrite" | prepend => "prepend"
        | append => "append" | complete => "complete"
        end).

(** [model.model_dump()] *)
Definition model_dump (model : Request) : list (string * json) :=
  match model with
  | ChatRequest text customId =>
      [("cmd", JStr "chat"); ("text", JStr text);
       ("customId", json_of_opt customId)]
  | WhisperRequest n text =>
      [("cmd", JStr "whisper"); ("nick", JStr n); ("text", JStr text)]
  | EmoteRequest text => [("cmd", JStr "emote"); ("text", JStr text)]
  | ChangeColorRequest color =>
      [("cmd", JStr "changecolor"); ("color", JStr color)]
  | ChangeNickRequest n => [("cmd", JStr "changenick"); ("nick", JStr n)]
  | InviteRequest n to =>
      [("cmd", JStr "invite"); ("nick", JStr n); ("to", json_of_opt to)]
  | JoinRequest n channel password =>
      [("cmd", JStr "join"); ("nick", JStr n); ("channel", JStr channel);
       ("password", json_of_opt password)]
  | PingRequest => [("cmd", JStr "ping")]
  | UpdateMessageRequest customId mode text =>
      [("cmd", JStr "updateMessage"); ("customId", JStr customId);
       ("mode", json_of_mode mode); ("text", json_of_opt text)]
  | CustomRequest rawjson => [("rawjson", JObj rawjson)]
  end.

Definition is_none (j : json) : bool :=
  match j with JNull => true | _ => false end.

(** The websocket, as far as sending goes: whether [self.websocket] is
    set, and the payloads handed to [send], which is taken to succeed. *)
Record Wire := {
  connected : bool;
  sent : list (list (string * json))
}.

(** [Bot._send_model] *)
Definition send_model (model : Request) (w : Wire) : Wire :=
  let payload :=
    match model with
    | CustomRequest rawjson => rawjson
    | _ => foldl (λ payload kv,
                    if negb (is_none kv.2) then PyDict.set kv.1 kv.2 payload
                    else payload) [] (model_dump model)
    end in
  if connected w
  then {| connected := connected w; sent := sent w ++ [payload] |}
  else w.

(** *** [Message], as [send_message] returns it *)

Record Message := {
  msg_text : string;
  msg_customId : option string;
  msg_editable : bool
}.

Definition new_message (text : string) (customId : option string) : Message :=
  {| msg_text := text; msg_customId := customId;
     msg_editable := bool_decide (customId ≠ None) |}.

(** [Bot.send_message]; [generated] is what [generate_customid] gives. *)
Definition send_message (text : string) (editable : bool) (generated : string)
    (w : Wire) : Message * Wire :=
  let customId := if editable then Some generated else None in
  (new_message text customId, send_model (ChatRequest text customId) w).

Definition generate_edit_request (mode : EditMode) (text : string)
    (m : Message) : Result Request :=
  if negb (msg_editable m) then Raise ValueError
  else match msg_customId m with
       | Some c =>
           if negb (String.eqb c "")
           then Ok (UpdateMessageRequest c mode (Some text))
           else Raise ValueError
       | None => Raise ValueError
       end.

(** The [_edit] that [send_message] gives the message. *)
Definition msg_edit_with (mode : EditMode) (text : string) (m : Message)
    (w : Wire) : Result unit * Wire :=
  match generate_edit_request mode text m with
  | Ok r => (Ok (), send_model r w)
  | Raise e => (Raise e, w)
  end.

Definition with_text (text : string) (m : Message) : Message :=
  {| msg_text := text; msg_customId := msg_customId m;
     msg_editable := msg_editable m |}.

(** The calls on a message.  [CallComplete] raises [SyntaxError] when the
    message has no [customId]; it returns its request and sends nothing. *)
Inductive MessageCall :=
  | CallEdit (text : string)
  | CallPrepend (text : string)
  | CallAppend (text : string)
  | CallComplete.

Definition message_call (s : Message * Wire) (c : MessageCall)
    : Message * Wire :=
  let (m, w) := s in
  match c with
  | CallEdit text =>
      let m' := with_text text m in (m', (msg_edit_with overwrite text m' w).2)
  | CallPrepend text =>
      let m' := with_text (text +:+ msg_text m) m in
      (m', (msg_edit_with prepend text m' w).2)
  | CallAppend text =>
      let m' := with_text (msg_text m +:+ text) m in
      (m', (msg_edit_with append text m' w).2)
  | CallComplete =>
      ({| msg_text := msg_text m; msg_customId := msg_customId m;
          msg_editable := false |}, w)
  end.

(** The text the calls give a message, had each of them applied. *)
Definition text_after (text : string) (c : MessageCall) : string :=
  match c with
  | CallEdit t => t
  | CallPrepend t => t +:+ text
  | CallAppend t => text +:+ t
  | CallComplete => text
  end.

(** *** [Bot.whisper], [Bot.change_nick], [CommandContext.respond] *)

Definition whisper (n text : string) (w : Wire) : Wire :=
  send_model (WhisperRequest n text) w.

Definition with_nick (n : string) (b : Bot) : Bot :=
  {| nick := n; users := users b; commands := commands b;
     event_functions := event_functions b;
     loaded_plugins := loaded_plugins b; killed := killed b |}.

Definition change_nick (n : string) (s : Bot * Wire)
    : Result unit * (Bot * Wire) :=
  if negb (verifyNick n) then (Raise ValueError, s)
  else (Ok (), (with_nick n s.1, send_model (ChangeNickRequest n) s.2)).

Definition respond (ctx : CommandContext) (text : string) (at_sender : bool)
    (w : Wire) : Wire :=
  match ctx_triggered_via ctx with
  | via_chat =>
      (send_message
         ((if at_sender then "@" +:+ u_nick (ctx_sender ctx) +:+ " " else "")
          +:+ text) false "" w).2
  | via_whisper => whisper (u_nick (ctx_sender ctx)) text w
  end.

(** The payload of a reply to [sender]. *)
Definition reply_payload (via : Via) (sender text : string) (at_sender : bool)
    : list (string * json) :=
  match via with
  | via_chat =>
      [("cmd", JStr "chat");
       ("text", JStr ((if at_sender then "@" +:+ sender +:+ " " else "")
                      +:+ text))]
  | via_whisper =>
      [("cmd", JStr "whisper"); ("nick", JStr sender); ("text", JStr text)]
  end.

Definition online : Wire := {| connected := true; sent := [] |}.
Definition offline : Wire := {| connected := false; sent := [] |}.

(** The payload of the update a call on a message sends. *)
Definition edit_payload (customId : string) (c : MessageCall)
    : list (string * json) :=
  match c with
  | CallEdit t =>
      [("cmd", JStr "updateMessage"); ("customId", JStr customId);
       ("mode", JStr "overwrite"); ("text", JStr t)]
  | CallPrepend t =>
      [("cmd", JStr "updateMessage"); ("customId", JStr customId);
       ("mode", JStr "prepend"); ("text", JStr t)]
  | CallAppend t =>
      [("cmd", JStr "updateMessage"); ("customId", JStr customId);
       ("mode", JStr "append"); ("text", JStr t)]
  | CallComplete => []
  end.

Definition is_complete (c : MessageCall) : bool :=
  match c with CallComplete => true | _ => false end.

Definition is_custom (model : Request) : bool :=
  match model with CustomRequest _ => true | _ => false end.

(** A nickname [verifyNick] accepts, by its characters. *)
Definition valid_nick (n : string) : Prop :=
  (String.length n ≤ 24)%nat ∧ Forall word_char (chars n).

Definition ping_context : CommandContext :=
  {| ctx_sender := alice; ctx_triggered_via := via_chat;
     ctx_text := "Ping me"; ctx_args := "me";
     ctx_event := chat_event "Alice" "Ping me" |}.

(** ** Vocabulary of the statement on constructors *)

Section Built.
Context {lax : LaxCoercion}.

(** The commands on which the classifier hands the envelope, as it is, to
    one constructor, and that constructor. *)
Definition plain_constructors
    : list (string * ((string → option json) → option Event)) :=
  [("chat", λ g, EvChat <$> mk_Chat g);
   ("onlineSet", λ g, EvOnlineSet <$> mk_OnlineSet g);
   ("onlineAdd", λ g, EvOnlineAdd <$> mk_OnlineAdd g);
   ("onlineRemove", λ g, EvOnlineRemove <$> mk_OnlineRemove g);
   ("updateUser", λ g, EvUpdateUser <$> mk_UpdateUser g);
   ("updateMessage", λ g, EvUpdateMessage <$> mk_UpdateMessage g);
   ("captcha", λ g, EvCaptcha <$> mk_Captcha g)].

(** An event is what its constructor makes of an envelope. *)
Definition built_by (ev : Event) (d : envelope) : Prop :=
  let g := λ k, d !! k in
  match ev with
  | EvChat p => mk_Chat g = Some p
  | EvEmote p => mk_Emote g = Some p
  | EvInfo p => mk_Info g = Some p
  | EvInvite p => mk_Invite g = Some p
  | EvOnlineAdd p => mk_OnlineAdd g = Some p
  | EvOnlineRemove p => mk_OnlineRemove g = Some p
  | EvOnlineSet p => mk_OnlineSet g = Some p
  | EvUpdateUser p => mk_UpdateUser g = Some p
  | EvWarn p => mk_Warn g = Some p
  | EvWhisper p => mk_Whisper g = Some p
  | EvUpdateMessage p => mk_UpdateMessage g = Some p
  | EvChangeNick p => mk_ChangeNick g = Some p
  | EvCaptcha p => mk_Captcha g = Some p
  | EvLockroom p =>
      ∃ time, d !! "time" = Some time
              ∧ mk_Lockroom (obj_get [("cmd", JStr "info"); ("time", time)])
                = Some p
  | EvWhisperSent p => mk_WhisperSent g = Some p
  | EvUncatched p => rawjson p = d
  | EvRateLimited p =>
      d !! "text" = Some (JStr (rl_text p))
      ∧ RL_MAPPING (rl_text p) = Some (rl_type p)
  end.

End Built.

(** A join that lacks most of its fields. *)
Definition sample_online_add_bare : envelope :=
  envelope_of [("cmd", JStr "onlineAdd"); ("nick", JStr "Bob")].

(** * Properties *)

(** A membership in a list that is written out: its cases. *)
Ltac no_elem :=
  repeat match goal with
         | H : list_elem_of _ [] |- _ => inversion H
         | H : _ ∈ [] |- _ => inversion H
         | H : list_elem_of _ (_ :: _) |- _ => inversion H; clear H; subst
         | H : _ ∈ _ :: _ |- _ => inversion H; clear H; subst
         end.

(** ** Nickname validity *)

Lemma nick_char_word_char c : nick_char c = true ↔ word_char c.
Proof.
  destruct c as [[] [] [] [] [] [] [] []]; vm_compute;
    split; intros H; try reflexivity; try discriminate H.
  all: try (left; split; discriminate).
  all: try (right; left; split; discriminate).
  all: try (right; right; left; split; discriminate).
  all: try (right; right; right; reflexivity).
  all: destruct H as [[H1 H2]|[[H1 H2]|[[H1 H2]|H]]];
    try discriminate H; try (exfalso; apply H1; reflexivity);
    try (exfalso; apply H2; reflexivity).
Qed.

Lemma all_Forall p s : PyStr.all p s = true ↔ Forall (λ c, p c = true) (chars s).
Proof.
  induction s as [|a s IH]; simpl.
  - split; [constructor | reflexivity].
  - rewrite andb_true_iff, IH, Forall_cons. reflexivity.
Qed.

(** What [verifyNick] computes: at most 24 characters, each of them an ASCII
    letter, a digit or an underscore.  There is no lower bound. *)
Lemma verifyNick_iff s :
  verifyNick s = true ↔ (String.length s ≤ 24)%nat ∧ Forall word_char (chars s).
Proof.
  unfold verifyNick.
  destruct (Nat.ltb_spec 24 (String.length s)) as [Hlt|Hle].
  - split; [discriminate | intros [? _]; lia].
  - rewrite all_Forall. split.
    + intros H. split; [exact Hle|].
      eapply Forall_impl; [exact H|]. intros c. apply nick_char_word_char.
    + intros [_ H]. eapply Forall_impl; [exact H|].
      intros c. apply nick_char_word_char.
Qed.

(** C6: [verifyNick] accepts the empty string, which is not a nickname of
    1 to 24 characters. *)
Theorem verifyNick_empty : verifyNick "" = true ∧ String.length "" = 0.
Proof. split; reflexivity. Qed.

(** ** The classifier: which envelopes raise, which fall to the catch-all *)

(** Lookups in an envelope after the writes of the classifier. *)
Ltac env_lookup :=
  repeat first
    [ rewrite lookup_insert_eq
    | rewrite lookup_insert_ne by discriminate
    | rewrite lookup_delete_eq
    | rewrite lookup_delete_ne by discriminate ].

Section ClassifierFacts.
Context {lax : LaxCoercion}.

Lemma no_cmd_raises (d : envelope) :
  py_not (d !! "cmd") = true → json_to_object d = (Raise ValueError, d).
Proof.
  intros H. unfold json_to_object, bind, get. simpl. rewrite H. reflexivity.
Qed.

Lemma known_command_false (o : option json) :
  known_command o = false →
  Forall (λ c, get_is o c = false) KNOWN_COMMANDS.
Proof.
  unfold known_command. intros H.
  apply Forall_forall. intros c Hc.
  destruct (get_is o c) eqn:E; [|reflexivity].
  assert (existsb (get_is o) KNOWN_COMMANDS = true) as Hex.
  { apply existsb_exists. exists c. split; [|exact E].
    apply list_elem_of_In. exact Hc. }
  congruence.
Qed.

Lemma unknown_cmd_uncatched (d : envelope) :
  py_not (d !! "cmd") = false →
  known_command (d !! "cmd") = false →
  json_to_object d = (Ok (EvUncatched {| rawjson := d |}), d).
Proof.
  intros Hc Hk. apply known_command_false in Hk.
  unfold KNOWN_COMMANDS in Hk.
  repeat (apply Forall_cons in Hk as [? Hk]).
  unfold json_to_object, bind, get. simpl. rewrite Hc.
  repeat match goal with
         | H : get_is _ _ = false |- _ => rewrite H; clear H
         end.
  reflexivity.
Qed.

Lemma info_other_type_uncatched (d : envelope) :
  d !! "cmd" = Some (JStr "info") →
  py_not (d !! "type") = false →
  get_is (d !! "type") "whisper" = false →
  get_is (d !! "type") "invite" = false →
  json_to_object d = (Ok (EvUncatched {| rawjson := d |}), d).
Proof.
  intros Hc Ht Hw Hi.
  unfold json_to_object, classify_info, bind, get.
  repeat (rewrite ?Hc, ?Ht, ?Hw, ?Hi; simpl). reflexivity.
Qed.

Lemma split1_no_sep sep s :
  PyStr.partition sep s = None → py_index (PyStr.split1 sep s) 1 = Raise IndexError.
Proof. unfold PyStr.split1. intros ->. reflexivity. Qed.

Lemma emote_no_space_raises (d : envelope) (t : string) :
  d !! "cmd" = Some (JStr "emote") →
  d !! "text" = Some (JStr t) →
  PyStr.partition " " t = None →
  json_to_object d = (Raise IndexError, d).
Proof.
  intros Hc Ht Hs.
  unfold json_to_object, bind, get, getitem, lift.
  repeat (rewrite ?Hc, ?Ht, ?(split1_no_sep _ _ Hs); simpl). reflexivity.
Qed.

Lemma whisper_no_colon_raises (d : envelope) (t : string) :
  d !! "cmd" = Some (JStr "info") →
  d !! "type" = Some (JStr "whisper") →
  d !! "text" = Some (JStr t) →
  PyStr.partition ": " t = None →
  ∃ x, (json_to_object d).1 = Raise x ∧ (x = IndexError ∨ x = KeyError).
Proof.
  intros Hc Hty Ht Hs.
  unfold json_to_object, classify_info, bind, get, get_or_empty, getitem,
    setitem, delitem, lift.
  repeat (rewrite ?Hc, ?Hty, ?Ht; simpl).
  destruct (PyStr.startswith t "You whispered to").
  - repeat (rewrite ?Ht, ?(split1_no_sep _ _ Hs); simpl). eauto.
  - destruct (d !! "to") eqn:Hto; simpl; [|eauto].
    env_lookup. rewrite Hto. simpl. env_lookup.
    repeat (rewrite ?Ht, ?(split1_no_sep _ _ Hs); simpl). eauto.
Qed.

Lemma chat_rejected_raises (d : envelope) :
  d !! "cmd" = Some (JStr "chat") →
  mk_Chat (λ k, d !! k) = None →
  json_to_object d = (Raise ValidationError, d).
Proof.
  intros Hc Hm.
  unfold json_to_object, bind, get, construct.
  repeat (rewrite ?Hc, ?Hm; simpl). reflexivity.
Qed.

(** The constructor of [ChangeNickPackage] wants [cmd] to be
    ["changenick"], and the one of [InvitePackage] wants ["invite"]: an
    envelope that reached them has ["info"] there. *)
Lemma mk_ChangeNick_info (g : string → option json) :
  g "cmd" = Some (JStr "info") → mk_ChangeNick g = None.
Proof.
  intros Hc. unfold mk_ChangeNick, req. rewrite Hc. simpl.
  repeat case_match; try reflexivity.
  all: repeat match goal with
              | |- context [v_str ?j] => destruct (v_str j); simpl
              end; reflexivity.
Qed.

Lemma mk_Invite_info (g : string → option json) :
  g "cmd" = Some (JStr "info") → mk_Invite g = None.
Proof.
  intros Hc. unfold mk_Invite, req. rewrite Hc. simpl.
  repeat case_match; try reflexivity.
  all: repeat match goal with
              | |- context [v_str ?j] => destruct (v_str j); simpl
              end; reflexivity.
Qed.

Lemma get_is_Some (o : option json) (s : string) :
  get_is o s = true → o = Some (JStr s).
Proof.
  destruct o as [[]|]; simpl; try discriminate.
  intros H. apply String.eqb_eq in H. congruence.
Qed.

(** The test for a change of nickname only reads. *)
Lemma looks_like_change_nick_pure (d : envelope) :
  (looks_like_change_nick d).2 = d.
Proof.
  unfold looks_like_change_nick, and_then, bind, get_or_empty, lift, ret.
  repeat case_match; simplify_eq/=; reflexivity.
Qed.

Lemma looks_like_change_nick_inv (d g : envelope) (r : Result bool) :
  looks_like_change_nick d = (r, g) → g = d.
Proof.
  intros H. pose proof (looks_like_change_nick_pure d) as Hp.
  rewrite H in Hp. exact Hp.
Qed.

(** Only the scratch keys of an envelope are written or deleted. *)
Lemma json_to_object_frame (d : envelope) (k : string) :
  k ∉ SCRATCH_KEYS → (json_to_object d).2 !! k = d !! k.
Proof.
  intros Hk.
  assert (Forall (λ s, s ≠ k) SCRATCH_KEYS) as Hs.
  { apply Forall_forall. intros s Hin ->. exact (Hk Hin). }
  unfold SCRATCH_KEYS in Hs.
  repeat (apply Forall_cons in Hs as [? Hs]).
  unfold json_to_object, classify_info, classify_warn, uncatched,
    construct_kw, construct, bind, get, get_or_empty, getitem, setitem,
    delitem, lift, ret, raise.
  repeat case_match; simplify_eq/=;
    repeat match goal with
           | H : looks_like_change_nick _ = _ |- _ =>
               apply looks_like_change_nick_inv in H; subst
           end;
    repeat first [ rewrite lookup_insert_ne by assumption
                 | rewrite lookup_delete_ne by assumption ];
    reflexivity.
Qed.

(** Calling the classifier again on the envelope it has left gives the
    same event and leaves the envelope as it is, unless the first call
    returned a received whisper (whose key [to] is gone). *)
Lemma json_to_object_replay (d d' : envelope) (ev : Event) :
  json_to_object d = (Ok ev, d') →
  type_of ev ≠ TWhisper →
  json_to_object d' = (Ok ev, d').
Proof.
  intros H Hne. pose proof H as H0.
  unfold json_to_object, classify_info, classify_warn, uncatched,
    construct_kw, construct, bind, get, get_or_empty, getitem, setitem,
    delitem, lift, ret, raise in H.
  repeat case_match; simplify_eq/=;
    repeat match goal with
           | H : looks_like_change_nick _ = _ |- _ =>
               apply looks_like_change_nick_inv in H; subst
           end;
    try assumption; try (exfalso; apply Hne; reflexivity).
  all: try match goal with
       | H : mk_ChangeNick _ = Some _ |- _ =>
           rewrite mk_ChangeNick_info in H;
           [discriminate | simpl; env_lookup; apply get_is_Some; assumption]
       | H : mk_Invite _ = Some _ |- _ =>
           rewrite mk_Invite_info in H;
           [discriminate | simpl; env_lookup; apply get_is_Some; assumption]
       end.
  all: clear H0 Hne.
  all: unfold json_to_object, classify_info, construct, bind, get,
         get_or_empty, getitem, setitem, lift, ret.
  all: repeat (progress (env_lookup; simpl; rewrite ?insert_insert_eq;
                         repeat match goal with
                                | H : ?l = _ |- context [?l] => rewrite H
                                end)).
  all: try reflexivity.
Qed.

End ClassifierFacts.

(** ** The classifier on the sample envelopes *)

Lemma sample_unknown_uncatched :
  json_to_object (lax:=json_native) sample_unknown
  = (Ok (EvUncatched {| rawjson := sample_unknown |}), sample_unknown).
Proof. reflexivity. Qed.

Lemma sample_not_a_change_nick_info :
  (json_to_object (lax:=json_native) sample_not_a_change_nick).1
  = Ok (EvInfo {| info_text := "Alice is now not valid nick!!" |}).
Proof. reflexivity. Qed.

Lemma sample_warn_global_rate_limited :
  (json_to_object (lax:=json_native) sample_warn_global).1
  = Ok (EvRateLimited {| rl_type := GLOBAL_RL; rl_text := GLOBAL_RL_TEXT |}).
Proof. reflexivity. Qed.

Lemma sample_warn_other_generic :
  (json_to_object (lax:=json_native) sample_warn_other).1
  = Ok (EvWarn {| warn_text := "Nickname taken" |}).
Proof. reflexivity. Qed.

(** ** Warnings and changes of nickname *)

Section ClassifierBranches.
Context {lax : LaxCoercion}.

(** The [warn] branch on a text [s]: the five phrases of [RL_MAPPING] give
    the rate-limited event, the sixth phrase of the list has no entry in
    the dict, any other text gives the plain warning. *)
Lemma classify_warn_text (d : envelope) (s : string) :
  d !! "cmd" = Some (JStr "warn") →
  d !! "text" = Some (JStr s) →
  classify_warn d =
    (match RL_MAPPING s with
     | Some r => Ok (EvRateLimited {| rl_type := r; rl_text := s |})
     | None =>
         if String.eqb s INVITE_RL_TEXT then Raise KeyError
         else Ok (EvWarn {| warn_text := s |})
     end, d).
Proof.
  intros Hc Ht.
  unfold classify_warn, bind, get, construct, ret, raise.
  rewrite Ht.
  unfold in_rate_limit_texts, rate_limit_texts, RL_MAPPING, existsb.
  assert (mk_Warn (λ k, d !! k) = Some {| warn_text := s |}) as Hm.
  { unfold mk_Warn, req. rewrite Hc, Ht. reflexivity. }
  destruct (String.eqb s CHANNEL_RL_TEXT) eqn:E1,
    (String.eqb s COLOR_RL_TEXT) eqn:E2,
    (String.eqb s INVITE_RL_TEXT) eqn:E3,
    (String.eqb s CHANGENICK_RL_TEXT) eqn:E4,
    (String.eqb s MESSAGE_RL_TEXT) eqn:E5,
    (String.eqb s GLOBAL_RL_TEXT) eqn:E6;
    cbv beta iota delta [orb];
    rewrite ?E1, ?E2, ?E3, ?E4, ?E5, ?E6; cbv beta iota;
    rewrite ?Hm; reflexivity.
Qed.

Lemma json_to_object_warn (d : envelope) :
  d !! "cmd" = Some (JStr "warn") → json_to_object d = classify_warn d.
Proof.
  intros Hc. unfold json_to_object, bind, get.
  repeat (rewrite ?Hc; simpl). reflexivity.
Qed.

(** No envelope is classified as a change of nickname or as an invite:
    the constructors always reject what the classifier hands them. *)
Lemma never_change_nick_nor_invite (d d' : envelope) (ev : Event) :
  json_to_object d = (Ok ev, d') →
  type_of ev ≠ TChangeNick ∧ type_of ev ≠ TInvite.
Proof.
  intros H.
  unfold json_to_object, classify_info, classify_warn, uncatched,
    construct_kw, construct, bind, get, get_or_empty, getitem, setitem,
    delitem, lift, ret, raise in H.
  repeat case_match; simplify_eq/=;
    repeat match goal with
           | H : looks_like_change_nick _ = _ |- _ =>
               apply looks_like_change_nick_inv in H; subst
           end;
    try (split; discriminate).
  all: match goal with
       | H : mk_ChangeNick _ = Some _ |- _ =>
           rewrite mk_ChangeNick_info in H;
           [discriminate | simpl; env_lookup; apply get_is_Some; assumption]
       | H : mk_Invite _ = Some _ |- _ =>
           rewrite mk_Invite_info in H;
           [discriminate | simpl; env_lookup; apply get_is_Some; assumption]
       end.
Qed.

End ClassifierBranches.

(** C3: a [warn] whose text is the invite phrase is in the list the
    classifier tests but not in [RL_MAPPING]: the classifier raises
    [KeyError], where the five phrases of the table give the rate-limited
    event and another text gives the plain warning. *)
Theorem warn_invite_phrase_raises :
  existsb (String.eqb INVITE_RL_TEXT) rate_limit_texts = true
  ∧ RL_MAPPING INVITE_RL_TEXT = None
  ∧ json_to_object (lax:=json_native) sample_warn_invite
    = (Raise KeyError, sample_warn_invite)
  ∧ (json_to_object (lax:=json_native) sample_warn_global).1
    = Ok (EvRateLimited {| rl_type := GLOBAL_RL; rl_text := GLOBAL_RL_TEXT |})
  ∧ (json_to_object (lax:=json_native) sample_warn_other).1
    = Ok (EvWarn {| warn_text := "Nickname taken" |}).
Proof. repeat split; reflexivity. Qed.

(** C5: on ["Alice is now Bob_2"] the four-part test holds and the old and
    new nicknames are extracted, but [ChangeNickPackage] then rejects the
    envelope, whose [cmd] is ["info"]: the classifier raises.  A text that
    fails the test is classified as plain info. *)
Theorem change_nick_sample_raises :
  (looks_like_change_nick sample_change_nick).1 = Ok true
  ∧ (json_to_object (lax:=json_native) sample_change_nick).1 = Raise ValidationError
  ∧ (json_to_object (lax:=json_native) sample_change_nick).2 !! "old_nick"
    = Some (JStr "Alice")
  ∧ (json_to_object (lax:=json_native) sample_change_nick).2 !! "new_nick"
    = Some (JStr "Bob_2")
  ∧ (json_to_object (lax:=json_native) sample_not_a_change_nick).1
    = Ok (EvInfo {| info_text := "Alice is now not valid nick!!" |}).
Proof. repeat split; reflexivity. Qed.

(** ** The receive loop *)

Section Loop.
Context {lax : LaxCoercion} (B : Behaviour).

Lemma internal_handler_nick (ev : Event) (b : Bot) :
  nick (internal_handler B ev b).1 = nick b.
Proof.
  unfold internal_handler. destruct ev; simpl; try reflexivity.
  destruct (get_user_by_nick _ _); reflexivity.
Qed.

Lemma run_task_nick (e : Engine) (t : handler * option Event) :
  nick (bot (run_task B e t)) = nick (bot e).
Proof.
  unfold run_task. destruct (decide _); [|reflexivity].
  destruct t.2; simpl; [apply internal_handler_nick | reflexivity].
Qed.

Lemma run_task_tasks (e : Engine) (t : handler * option Event) :
  tasks (run_task B e t) = tasks e.
Proof.
  unfold run_task. destruct (decide _); [|reflexivity].
  destruct t.2; reflexivity.
Qed.

Lemma foldl_run_task (e : Engine) (ts : list (handler * option Event)) :
  nick (bot (foldl (run_task B) e ts)) = nick (bot e)
  ∧ tasks (foldl (run_task B) e ts) = tasks e.
Proof.
  revert e. induction ts as [|t ts IH]; intros e; simpl; [done|].
  destruct (IH (run_task B e t)) as [-> ->].
  by rewrite run_task_nick, run_task_tasks.
Qed.

Lemma drain_nick (e : Engine) : nick (bot (drain B e)) = nick (bot e).
Proof. unfold drain. by destruct (foldl_run_task
         {| bot := bot e; tasks := []; trace := trace e; status := status e |}
         (tasks e)) as [-> _]. Qed.

Lemma drain_tasks (e : Engine) : tasks (drain B e) = [].
Proof. unfold drain. by destruct (foldl_run_task
         {| bot := bot e; tasks := []; trace := trace e; status := status e |}
         (tasks e)) as [_ ->]. Qed.

Lemma drain_no_tasks (e : Engine) : tasks e = [] → drain B e = e.
Proof. destruct e as [b ts tr st]. simpl. intros ->. reflexivity. Qed.

Lemma suspend_nick (e : Engine) : nick (bot (suspend B e)) = nick (bot e).
Proof. unfold suspend. destruct (status e); auto using drain_nick. Qed.

(** Once the tasks have run, waiting again changes nothing. *)
Lemma suspend_idem (e : Engine) : suspend B (suspend B e) = suspend B e.
Proof.
  unfold suspend at 2 3. destruct (status e) eqn:Hs.
  - unfold suspend. destruct (status (drain B e));
      auto using drain_no_tasks, drain_tasks.
  - unfold suspend. by rewrite Hs.
  - unfold suspend. by rewrite Hs.
Qed.

Lemma on_frame_suspend (ig : bool) (e : Engine) (f : Frame) :
  on_frame B ig (suspend B e) f = on_frame B ig e f.
Proof. unfold on_frame. by rewrite suspend_idem. Qed.

(** An envelope the classifier raises on is logged and skipped. *)
Lemma parse_failure_skipped (ig : bool) (e : Engine) (d : envelope) (x : PyExc) :
  (json_to_object d).1 = Raise x →
  status (suspend B e) = Running →
  on_frame B ig e (Data d) = warn (FailedToParse x) (suspend B e).
Proof. intros Hx Hs. unfold on_frame. by rewrite Hs, Hx. Qed.

(** A loop that has ended, or crashed, takes no further frame. *)
Lemma not_running_absorbs (ig : bool) (e : Engine) (f : Frame) :
  status e ≠ Running → on_frame B ig e f = e.
Proof.
  intros Hs. unfold on_frame, suspend.
  destruct (status e) eqn:E; [done| |]; by rewrite E.
Qed.

(** A synchronous handler that raises is logged; the loop of
    [_run_events] goes on and the engine keeps running. *)
Lemma call_or_schedule_status (arg : option Event) (e : Engine) (h : handler) :
  status (call_or_schedule B arg e h) = status e.
Proof.
  unfold call_or_schedule. destruct (is_coro B h); [|reflexivity].
  destruct (decide _), arg; reflexivity.
Qed.

Lemma run_events_status (sel : Selector) (arg : option Event) (e : Engine) :
  status (run_events B sel arg e) = status e.
Proof.
  unfold run_events.
  generalize (default [] (event_functions (bot e) !! sel)). intros hs.
  revert e. induction hs as [|h hs IH]; intros e; simpl; [done|].
  by rewrite IH, call_or_schedule_status.
Qed.

End Loop.

(** ** The classifier as a whole *)

Section BuiltLemmas.
Context {lax : LaxCoercion}.

Lemma in_rate_limit_texts_Some (o : option json) (s : string) :
  in_rate_limit_texts o = Some s → o = Some (JStr s).
Proof.
  unfold in_rate_limit_texts. destruct o as [[]|]; try discriminate.
  destruct (existsb _ _); [|discriminate]. congruence.
Qed.

(** On a plain command the classifier returns what the constructor returns
    and raises [ValidationError] where the constructor rejects. *)
Lemma plain_command_constructs (d : envelope) (c : string)
    (mk : (string → option json) → option Event) :
  (c, mk) ∈ plain_constructors →
  d !! "cmd" = Some (JStr c) →
  json_to_object d
  = (match mk (λ k, d !! k) with
     | Some ev => Ok ev
     | None => Raise ValidationError
     end, d).
Proof.
  intros Hin Hc. unfold plain_constructors in Hin. no_elem;
    unfold json_to_object, bind, get, construct, ret;
    repeat (rewrite ?Hc; simpl);
    match goal with |- context [?m (λ k, d !! k)] =>
      destruct (m (λ k, d !! k)) end; reflexivity.
Qed.

(** An event the classifier returns is the one its constructor made of the
    envelope as the classifier leaves it, and the catch-all is returned on
    an unknown command or an unknown kind of [info] only. *)
Lemma classified_is_built (d d' : envelope) (ev : Event) :
  json_to_object d = (Ok ev, d') →
  built_by ev d'
  ∧ (type_of ev = TUncatched →
     known_command (d !! "cmd") = false
     ∨ (get_is (d !! "cmd") "info" = true ∧ py_not (d !! "type") = false
        ∧ get_is (d !! "type") "whisper" = false
        ∧ get_is (d !! "type") "invite" = false)).
Proof.
  intros H.
  unfold json_to_object, classify_info, classify_warn, uncatched,
    construct_kw, construct, bind, get, get_or_empty, getitem, setitem,
    delitem, lift, ret, raise in H.
  repeat case_match; simplify_eq/=;
    (split; [| try discriminate; intros _]).
  all: try done.
  all: try (unfold known_command, KNOWN_COMMANDS; simpl;
            repeat match goal with
                   | H : get_is _ _ = _ |- _ => rewrite H
                   end; simpl; auto; fail).
  all: try (eexists; split; [eassumption|eassumption]; fail).
  all: try (match goal with
            | H : in_rate_limit_texts _ = Some _ |- _ =>
                apply in_rate_limit_texts_Some in H
            end; split; assumption).
Qed.

End BuiltLemmas.


(** C1 (as amended): the classifier returns a variant or raises.  A missing
    or falsy [cmd] raises [ValueError]; a truthy [cmd] that is none of the
    ten known commands, and an [info] with a sub-type tag other than
    ["whisper"] and ["invite"], fall to the catch-all variant, which carries
    the envelope as it was given; an emote text with no space and a whisper
    text with no colon-space raise, as does an envelope its constructor
    rejects: on a plain command the classifier returns what the constructor
    returns and raises [ValidationError] where it rejects, any event
    returned is the one its constructor made of the envelope as the
    classifier leaves it, and the catch-all is returned in the two cases
    above only; and the receive loop logs whatever the classifier raises
    and goes on running. *)
Theorem classify_returns_or_raises {lax : LaxCoercion} (d : envelope) :
  (py_not (d !! "cmd") = true → json_to_object d = (Raise ValueError, d))
  ∧ (py_not (d !! "cmd") = false → known_command (d !! "cmd") = false →
     json_to_object d = (Ok (EvUncatched {| rawjson := d |}), d))
  ∧ (d !! "cmd" = Some (JStr "info") → py_not (d !! "type") = false →
     get_is (d !! "type") "whisper" = false →
     get_is (d !! "type") "invite" = false →
     json_to_object d = (Ok (EvUncatched {| rawjson := d |}), d))
  ∧ (∀ t, d !! "cmd" = Some (JStr "emote") → d !! "text" = Some (JStr t) →
     PyStr.partition " " t = None →
     json_to_object d = (Raise IndexError, d))
  ∧ (∀ t, d !! "cmd" = Some (JStr "info") →
     d !! "type" = Some (JStr "whisper") → d !! "text" = Some (JStr t) →
     PyStr.partition ": " t = None →
     ∃ x, (json_to_object d).1 = Raise x ∧ (x = IndexError ∨ x = KeyError))
  ∧ (d !! "cmd" = Some (JStr "chat") → mk_Chat (λ k, d !! k) = None →
     json_to_object d = (Raise ValidationError, d))
  ∧ (∀ c mk, (c, mk) ∈ plain_constructors → d !! "cmd" = Some (JStr c) →
     json_to_object d
     = (match mk (λ k, d !! k) with
        | Some ev => Ok ev
        | None => Raise ValidationError
        end, d))
  ∧ (∀ ev d', json_to_object d = (Ok ev, d') →
     built_by ev d'
     ∧ (type_of ev = TUncatched →
        known_command (d !! "cmd") = false
        ∨ (get_is (d !! "cmd") "info" = true ∧ py_not (d !! "type") = false
           ∧ get_is (d !! "type") "whisper" = false
           ∧ get_is (d !! "type") "invite" = false)))
  ∧ (∀ B ig e x, (json_to_object d).1 = Raise x →
     status (suspend B e) = Running →
     on_frame B ig e (Data d) = warn (FailedToParse x) (suspend B e)
     ∧ status (on_frame B ig e (Data d)) = Running).
Proof.
  repeat split.
  - apply no_cmd_raises.
  - apply unknown_cmd_uncatched.
  - apply info_other_type_uncatched.
  - apply emote_no_space_raises.
  - apply whisper_no_colon_raises.
  - apply chat_rejected_raises.
  - intros c mk. apply plain_command_constructs.
  - by eapply classified_is_built.
  - by eapply classified_is_built.
  - by apply parse_failure_skipped.
  - rewrite (parse_failure_skipped B ig e d x) by assumption. assumption.
Qed.

(** C7 (as amended): the classifier is a function of the contents of the
    envelope; it writes or deletes only its scratch keys; and a second call
    on the envelope the first call has left returns the same event, unless
    that event is a received whisper. *)
Theorem classify_deterministic {lax : LaxCoercion} (d : envelope) :
  (∀ d2, d2 = d → json_to_object d2 = json_to_object d)
  ∧ (∀ k, k ∉ SCRATCH_KEYS → (json_to_object d).2 !! k = d !! k)
  ∧ (∀ ev d', json_to_object d = (Ok ev, d') → type_of ev ≠ TWhisper →
     json_to_object d' = (Ok ev, d')).
Proof.
  split; [by intros d2 ->|]. split.
  - intros k. apply json_to_object_frame.
  - intros ev d'. apply json_to_object_replay.
Qed.

(** C10: with [ignore_self] on, a chat, emote, join, leave or received
    whisper whose [nick] is the bot's own is dropped: the turn of the loop
    does what waiting in [recv] does and nothing else (no task is created,
    no handler is called, the roster is as the earlier events left it), and
    the run goes on as if the frame had not come. *)
Theorem self_event_dropped {lax : LaxCoercion} (B : Behaviour) (e : Engine)
    (d : envelope) (ev : Event) :
  (json_to_object d).1 = Ok ev →
  nick_of ev = Some (nick (bot e)) →
  on_frame B true e (Data d) = suspend B e
  ∧ users (bot (on_frame B true e (Data d))) = users (bot (suspend B e))
  ∧ trace (on_frame B true e (Data d)) = trace (suspend B e)
  ∧ (∀ ig f, on_frame B ig (on_frame B true e (Data d)) f = on_frame B ig e f).
Proof.
  intros Hev Hn.
  assert (on_frame B true e (Data d) = suspend B e) as Heq.
  { unfold on_frame. rewrite Hev.
    destruct (status (suspend B e)); try reflexivity.
    unfold is_self. rewrite Hn, suspend_nick, String.eqb_refl. reflexivity. }
  rewrite Heq. repeat split; try reflexivity.
  intros ig f. apply on_frame_suspend.
Qed.

(** C4: handler 1 raises on the first chat message.  Registered as a
    coroutine it is not called inside the [try] of [_run_events] but run
    later as a task of the group: the exception ends the run, and the second
    message is never dispatched.  Registered as a plain function, the same
    exception is caught and logged, handler 2 runs, and so does the dispatch
    of the second message. *)
Theorem coroutine_exception_stops_the_loop :
  let ev1 := Some (chat_event "Alice" "hi") in
  let ev2 := Some (chat_event "Carol" "yo") in
  let crashed := run (lax:=json_native) (first_raises true) true chat_bot two_chats in
  let alive := run (lax:=json_native) (first_raises false) true chat_bot two_chats in
  status crashed = Crashed
  ∧ trace crashed
    = [CalledEvent internal ev1; CalledEvent 1 ev1; CalledEvent 2 ev1]
  ∧ status alive = Running
  ∧ trace alive
    = [CalledEvent 1 ev1; Warning IgnoredEventException; CalledEvent 2 ev1;
       CalledEvent internal ev1;
       CalledEvent 1 ev2; Warning IgnoredEventException; CalledEvent 2 ev2].
Proof. repeat split; reflexivity. Qed.

(** ** Instances on the sample envelopes *)

Lemma classify_returns_or_raises_witness :
  json_to_object (lax:=json_native) ∅ = (Raise ValueError, ∅)
  ∧ json_to_object (lax:=json_native) sample_unknown
    = (Ok (EvUncatched {| rawjson := sample_unknown |}), sample_unknown)
  ∧ json_to_object (lax:=json_native) sample_info_other_type
    = (Ok (EvUncatched {| rawjson := sample_info_other_type |}),
       sample_info_other_type)
  ∧ json_to_object (lax:=json_native) sample_emote_no_space
    = (Raise IndexError, sample_emote_no_space)
  ∧ (∃ x, (json_to_object (lax:=json_native) sample_whisper_no_colon).1 = Raise x
          ∧ (x = IndexError ∨ x = KeyError))
  ∧ json_to_object (lax:=json_native) sample_chat_bad_level
    = (Raise ValidationError, sample_chat_bad_level)
  ∧ json_to_object (lax:=json_native) sample_online_add_bare
    = (Raise ValidationError, sample_online_add_bare)
  ∧ built_by (lax:=json_native) sample_emote_event
      (json_to_object (lax:=json_native) sample_emote).2
  ∧ status (on_frame (lax:=json_native) quiet true (start (new_bot "hvicorn"))
              (Data ∅)) = Running.
Proof.
  split.
  { apply (classify_returns_or_raises (lax:=json_native) ∅). reflexivity. }
  split.
  { destruct (classify_returns_or_raises (lax:=json_native) sample_unknown)
      as (_ & H & _). apply H; reflexivity. }
  split.
  { destruct (classify_returns_or_raises (lax:=json_native) sample_info_other_type)
      as (_ & _ & H & _). apply H; reflexivity. }
  split.
  { apply (classify_returns_or_raises (lax:=json_native) sample_emote_no_space)
      with (t := "@Alice"); reflexivity. }
  split.
  { apply (classify_returns_or_raises (lax:=json_native) sample_whisper_no_colon)
      with (t := "Alice whispered"); reflexivity. }
  split.
  { apply (classify_returns_or_raises (lax:=json_native) sample_chat_bad_level);
      reflexivity. }
  split.
  { destruct (classify_returns_or_raises (lax:=json_native) sample_online_add_bare)
      as (_ & _ & _ & _ & _ & _ & H & _).
    rewrite (H "onlineAdd"
               (λ g, EvOnlineAdd <$> mk_OnlineAdd (lax:=json_native) g)).
    - reflexivity.
    - apply list_elem_of_lookup_2 with 2. reflexivity.
    - reflexivity. }
  split.
  { destruct (classify_returns_or_raises (lax:=json_native) sample_emote)
      as (_ & _ & _ & _ & _ & _ & _ & H & _).
    apply (H sample_emote_event). reflexivity. }
  apply (classify_returns_or_raises (lax:=json_native) ∅) with (x := ValueError);
    reflexivity.
Defined.

Lemma classify_deterministic_witness :
  json_to_object (lax:=json_native) sample_emote
  = json_to_object (lax:=json_native) sample_emote
  ∧ (json_to_object (lax:=json_native) sample_emote).2 !! "cmd"
    = sample_emote !! "cmd"
  ∧ json_to_object (lax:=json_native)
      (json_to_object (lax:=json_native) sample_emote).2
    = (Ok sample_emote_event, (json_to_object (lax:=json_native) sample_emote).2).
Proof.
  split.
  { apply (classify_deterministic (lax:=json_native) sample_emote). reflexivity. }
  split.
  { apply (classify_deterministic (lax:=json_native) sample_emote).
    unfold SCRATCH_KEYS. intros Hin.
    repeat (apply elem_of_cons in Hin as [Hin|Hin]; [discriminate Hin|]).
    by apply elem_of_nil in Hin. }
  apply (classify_deterministic (lax:=json_native) sample_emote).
  - reflexivity.
  - discriminate.
Defined.

Lemma self_event_dropped_witness :
  let e := start (new_bot "hvicorn") in
  let d := sample_online_add "hvicorn" in
  on_frame (lax:=json_native) quiet true e (Data d) = suspend quiet e
  ∧ users (bot (on_frame (lax:=json_native) quiet true e (Data d)))
    = users (bot (suspend quiet e))
  ∧ trace (on_frame (lax:=json_native) quiet true e (Data d))
    = trace (suspend quiet e)
  ∧ (∀ ig f, on_frame (lax:=json_native) quiet ig
               (on_frame (lax:=json_native) quiet true e (Data d)) f
             = on_frame (lax:=json_native) quiet ig e f).
Proof.
  intros e d.
  apply (self_event_dropped (lax:=json_native) quiet e d
           (EvOnlineAdd {| add_channel := Some "lounge"; add_color := CBool false;
                           add_hash := "h"; add_isBot := false; add_level := 100;
                           add_nick := "hvicorn"; add_time := 0; add_trip := None;
                           add_uType := user; add_userid := 7 |})).
  - reflexivity.
  - reflexivity.
Defined.

(** ** The claims of totality and of purity do not hold as stated *)

(** C1: an envelope with no [cmd], an emote with no space, a whisper with no
    colon-space and a chat with a level that is no number are not
    classified: the classifier raises. *)
Lemma classify_raises_on_malformed :
  (json_to_object (lax:=json_native) ∅).1 = Raise ValueError
  ∧ (json_to_object (lax:=json_native) sample_emote_no_space).1 = Raise IndexError
  ∧ (json_to_object (lax:=json_native) sample_whisper_no_colon).1 = Raise IndexError
  ∧ (json_to_object (lax:=json_native) sample_chat_bad_level).1
    = Raise ValidationError.
Proof. repeat split; reflexivity. Qed.

(** C7: classifying a received whisper deletes the key [to] from the
    envelope and adds two keys; classifying the same envelope again raises
    [KeyError]. *)
Lemma classify_twice_differs :
  let r := json_to_object (lax:=json_native) sample_whisper in
  is_ok r.1 = true
  ∧ sample_whisper !! "to" = Some (JInt 7)
  ∧ r.2 !! "to" = None
  ∧ r.2 ≠ sample_whisper
  ∧ (json_to_object (lax:=json_native) r.2).1 = Raise KeyError
  ∧ (json_to_object (lax:=json_native) r.2).1 ≠ r.1.
Proof.
  repeat split; try reflexivity.
  - intros Heq. apply (f_equal (λ m : envelope, m !! "to")) in Heq.
    vm_compute in Heq. discriminate Heq.
  - vm_compute. discriminate.
Qed.

(** ** The session directory: partial updates *)

Lemma upd_attr_overlay {V} `{EqDecision V} (v : option V) (cur : V) :
  upd_attr v cur = overlay v cur.
Proof.
  unfold upd_attr, overlay. destruct v as [x|]; simpl; [|reflexivity].
  destruct (decide (x = cur)); congruence.
Qed.

Lemma apply_update_overlay (p : UpdateUserPackage) (u : User) :
  apply_update p u = overlay_user p u.
Proof.
  unfold apply_update, overlay_user. by rewrite !upd_attr_overlay.
Qed.

Lemma overlay_idem {V} (v : option V) (cur : V) :
  overlay v (overlay v cur) = overlay v cur.
Proof. by destruct v. Qed.

Lemma overlay_user_idem (p : UpdateUserPackage) (u : User) :
  overlay_user p (overlay_user p u) = overlay_user p u.
Proof.
  unfold overlay_user. simpl. by rewrite !overlay_idem.
Qed.

Lemma update_first_find (n : string) (f : User → User) (us : list User) :
  update_first n f us
  = match list_find (λ u, u_nick u = n) us with
    | Some (i, u) => <[i := f u]> us
    | None => us
    end.
Proof.
  induction us as [|u us IH]; [reflexivity|].
  cbn [update_first list_find]. destruct (decide (u_nick u = n)).
  - reflexivity.
  - rewrite IH. csimpl. destruct (list_find _ us) as [[i u']|]; reflexivity.
Qed.

Lemma update_first_idem (n : string) (f : User → User) (us : list User) :
  (∀ u, u_nick u = n → u_nick (f u) = n ∧ f (f u) = f u) →
  update_first n f (update_first n f us) = update_first n f us.
Proof.
  intros Hf. induction us as [|u us IH]; [reflexivity|].
  simpl. destruct (decide (u_nick u = n)) as [Hn|Hn]; simpl.
  - destruct (Hf u Hn) as [Hn' ->]. by rewrite decide_True.
  - by rewrite decide_False, IH.
Qed.

Lemma update_user_idem (p : UpdateUserPackage) (us : list User) :
  update_user p (update_user p us) = update_user p us.
Proof.
  unfold update_user. destruct (upd_nick p) as [n|] eqn:Hn; [|reflexivity].
  destruct (String.eqb n ""); [reflexivity|].
  apply update_first_idem. intros u Hu. rewrite !apply_update_overlay.
  split; [|apply overlay_user_idem].
  unfold overlay_user. simpl. by rewrite Hn.
Qed.

(** C9: applying a user-attribute update twice leaves the bot as applying
    it once does; one application calls no handler, touches the roster
    only, and there replaces the participant the update is for by its
    overlay with the update: the present fields overwritten, the absent
    ones and every other participant as they were. *)
Theorem update_user_idempotent (B : Behaviour) (p : UpdateUserPackage) (b : Bot) :
  let once := (internal_handler B (EvUpdateUser p) b).1 in
  (internal_handler B (EvUpdateUser p) once).1 = once
  ∧ (internal_handler B (EvUpdateUser p) b).2 = []
  ∧ once
    = with_users
        (match update_target p (users b) with
         | Some (i, u) => <[i := overlay_user p u]> (users b)
         | None => users b
         end) b.
Proof.
  unfold internal_handler. simpl. repeat split.
  - unfold with_users. simpl. by rewrite update_user_idem.
  - unfold with_users. f_equal.
    unfold update_user, update_target.
    destruct (upd_nick p) as [n|]; [|reflexivity].
    destruct (String.eqb n ""); [reflexivity|].
    rewrite update_first_find.
    destruct (list_find _ _) as [[i u]|]; [|reflexivity].
    by rewrite apply_update_overlay.
Qed.
(** ** The command router *)

Lemma append_cons (c : ascii) (a b : string) :
  String c a +:+ b = String c (a +:+ b).
Proof. reflexivity. Qed.

Lemma prefix_app (p s : string) :
  String.prefix p s = true ↔ ∃ r, s = p +:+ r.
Proof.
  revert s. induction p as [|a p IH]; intros s.
  - destruct s; simpl; split; eauto.
  - destruct s as [|b s]; simpl.
    + split; [discriminate | intros [r Hr]; discriminate Hr].
    + destruct (ascii_dec a b) as [->|Hne].
      * rewrite IH. split; intros [r Hr]; exists r;
          rewrite append_cons in *; congruence.
      * split; [discriminate|]. intros [r Hr].
        rewrite append_cons in Hr. congruence.
Qed.

Lemma append_assoc (a b c : string) : (a +:+ b) +:+ c = a +:+ b +:+ c.
Proof.
  induction a as [|x a IH]; [reflexivity|].
  rewrite !append_cons. congruence.
Qed.


Lemma prefix_space_cons (c : ascii) (s : string) :
  String.prefix " " (String c s) = Ascii.eqb c " ".
Proof.
  destruct (Ascii.eqb_spec c " ") as [->|Hne].
  - apply prefix_app. by exists s.
  - destruct (String.prefix " " (String c s)) eqn:E; [|reflexivity].
    apply prefix_app in E as [r Hr]. rewrite append_cons in Hr. congruence.
Qed.

Lemma partition_space_cons (c : ascii) (s : string) :
  PyStr.partition " " (String c s)
  = if Ascii.eqb c " " then Some ("", s)
    else match PyStr.partition " " s with
         | Some (a, b) => Some (String c a, b)
         | None => None
         end.
Proof.
  cbn [PyStr.partition]. rewrite prefix_space_cons.
  destruct (Ascii.eqb c " "); reflexivity.
Qed.





Section Router.
Context (B : Behaviour).


Lemma command_args_exact (text P : string) :
  command_args text P = Ok "" ∨ text ≠ P.
Proof.
  unfold command_args. destruct (String.eqb_spec text P); simpl; eauto.
Qed.




End Router.

(** C2: the code on the claim's own example.  With the prefixes of
    [command_bot], the chat message [.hv plugin now] of a user on the roster
    matches the prefix [.hv plugin] and not [.hv plugins]; its command is
    called, and the argument handed over is ["plugin now"], the text after
    the first space of the text, where the claim, as the comments of the
    code, has ["now"], the text less the prefix and a space. *)
Theorem plugin_command_args :
  let ev := chat_event "Alice" ".hv plugin now" in
  matches ".hv plugin now" ".hv plugin" = true
  ∧ matches ".hv plugin now" ".hv plugins" = false
  ∧ (internal_handler quiet ev command_bot).2
    = [CalledCommand 1
         {| ctx_sender := alice; ctx_triggered_via := via_chat;
            ctx_text := ".hv plugin now"; ctx_args := "plugin now";
            ctx_event := ev |}]
  ∧ PyStr.drop (String.length ".hv plugin" + 1) ".hv plugin now" = "now"
  ∧ "plugin now" ≠ "now".
Proof. repeat split; try reflexivity. discriminate. Qed.

(** ** The plugin manager *)

Lemma filter_ext_elem {A} (P Q : A → Prop) `{!∀ x, Decision (P x)}
    `{!∀ x, Decision (Q x)} (l : list A) :
  (∀ x, x ∈ l → (P x ↔ Q x)) → filter P l = filter Q l.
Proof.
  induction l as [|a l IH]; intros HPQ; [reflexivity|].
  rewrite !filter_cons.
  assert (filter P l = filter Q l) as ->.
  { apply IH. intros x Hx. apply HPQ. by right. }
  destruct (HPQ a ltac:(left)) as [H1 H2].
  destruct (decide (P a)), (decide (Q a)); tauto.
Qed.

Lemma PyDict_del_absent {V} (k : string) (d : list (string * V)) :
  k ∉ PyDict.keys d → PyDict.del k d = d.
Proof.
  intros Hk. unfold PyDict.del, PyDict.keys in *.
  induction d as [|[k' v] d IH]; [reflexivity|].
  rewrite filter_cons. rewrite fmap_cons, not_elem_of_cons in Hk.
  destruct Hk as [Hne Hk]. simpl in *.
  rewrite decide_True by congruence. by rewrite IH.
Qed.

(** Unregistering the recorded prefixes keeps the items of every other
    key, in their order. *)
Lemma unregister_commands_filter (recorded : list string)
    (cs : list (string * handler)) :
  unregister_commands recorded cs = filter (λ kv, kv.1 ∉ recorded) cs.
Proof.
  unfold unregister_commands. revert cs.
  induction recorded as [|c recorded IH]; intros cs.
  - simpl. symmetry. induction cs as [|kv cs IHcs]; [reflexivity|].
    rewrite filter_cons, decide_True by apply not_elem_of_nil. by rewrite IHcs.
  - cbn [foldl].
    assert ((if PyDict.mem c cs then PyDict.del c cs else cs) = PyDict.del c cs)
      as ->.
    { unfold PyDict.mem. case_bool_decide; [reflexivity|].
      symmetry. by apply PyDict_del_absent. }
    rewrite IH. unfold PyDict.del. rewrite list_filter_filter.
    apply list_filter_iff. intros kv. rewrite not_elem_of_cons. tauto.
Qed.

Lemma unload_keeps_old_commands (before : list string)
    (cs : list (string * handler)) :
  unregister_commands (new_commands before (PyDict.keys cs)) cs
  = filter (λ kv, kv.1 ∈ before) cs.
Proof.
  rewrite unregister_commands_filter. apply filter_ext_elem.
  intros kv Hkv. unfold new_commands. rewrite list_elem_of_filter.
  assert (kv.1 ∈ PyDict.keys cs) as Hk.
  { unfold PyDict.keys. apply list_elem_of_fmap. eauto. }
  destruct (decide (kv.1 ∈ before)); tauto.
Qed.

(** What the loop over the recorded handlers does to each selector. *)
Lemma unregister_handlers_lookup (recorded ef : gmap Selector (list handler))
    (e : Selector) :
  unregister_handlers recorded ef !! e
  = match recorded !! e with
    | Some tail => remove_handlers tail <$> ef !! e
    | None => ef !! e
    end.
Proof.
  unfold unregister_handlers. revert e.
  apply (map_fold_weak_ind
           (λ r (m : gmap Selector (list handler)),
              ∀ e, r !! e = match m !! e with
                            | Some tail => remove_handlers tail <$> ef !! e
                            | None => ef !! e
                            end)).
  - intros e. by rewrite lookup_empty.
  - intros i x m r Hi IH e.
    pose proof (IH i) as Hri. rewrite Hi in Hri.
    destruct (decide (i = e)) as [<-|Hne].
    + rewrite lookup_insert_eq.
      destruct (r !! i) as [fs|] eqn:Hr.
      * rewrite lookup_insert_eq. by rewrite <- Hri.
      * by rewrite Hr, <- Hri.
    + rewrite lookup_insert_ne by done.
      destruct (r !! i); [rewrite lookup_insert_ne by done|]; apply IH.
Qed.

Lemma new_handlers_lookup (ef0 ef : gmap Selector (list handler)) (e : Selector) :
  new_handlers (length <$> ef0) ef !! e
  = match ef !! e with
    | Some hs =>
        if decide (length (default [] (ef0 !! e)) < length hs)
        then Some (drop (length (default [] (ef0 !! e))) hs)
        else None
    | None => None
    end.
Proof.
  unfold new_handlers. rewrite map_lookup_imap, lookup_fmap.
  destruct (ef !! e) as [hs|]; [|reflexivity]. simpl.
  by destruct (ef0 !! e).
Qed.

Lemma list_remove_first_app {A} `{EqDecision A} (x : A) (pre l : list A) :
  x ∉ pre → list_remove_first x (pre ++ x :: l) = pre ++ l.
Proof.
  induction pre as [|y pre IH]; intros Hx; simpl.
  - by rewrite decide_True.
  - apply not_elem_of_cons in Hx as [Hne Hx].
    rewrite decide_False by congruence. by rewrite IH.
Qed.

(** Handlers that were not registered before are removed where they were
    added. *)
Lemma remove_handlers_tail (pre tail : list handler) :
  (∀ h, h ∈ tail → h ∉ pre) → remove_handlers tail (pre ++ tail) = pre.
Proof.
  unfold remove_handlers. induction tail as [|h tail IH]; intros Hd; simpl.
  - apply app_nil_r.
  - rewrite bool_decide_eq_true_2 by (apply elem_of_app; right; left).
    rewrite list_remove_first_app by (apply Hd; left).
    apply IH. intros h' Hh'. apply Hd. by right.
Qed.

Lemma list_remove_first_perm {A} `{EqDecision A} (x : A) (l : list A) :
  x ∈ l → l ≡ₚ x :: list_remove_first x l.
Proof.
  induction l as [|y l IH]; intros Hx; simpl.
  - by apply elem_of_nil in Hx.
  - destruct (decide (y = x)) as [->|Hne]; [reflexivity|].
    apply elem_of_cons in Hx as [->|Hx]; [done|].
    rewrite (IH Hx) at 1. apply Permutation_swap.
Qed.

(** In general the handlers left are the earlier ones up to their order. *)
Lemma remove_handlers_perm (pre tail l : list handler) :
  l ≡ₚ tail ++ pre → remove_handlers tail l ≡ₚ pre.
Proof.
  unfold remove_handlers. revert l.
  induction tail as [|h tail IH]; intros l Hl; simpl; [exact Hl|].
  assert (h ∈ l) as Hin by (rewrite Hl; left).
  rewrite bool_decide_eq_true_2 by done.
  apply IH. apply (Permutation_cons_inv (a := h)).
  by rewrite <- list_remove_first_perm.
Qed.

(** C8 (as amended): when the initializer succeeds, [load_plugin] registers
    nothing itself and records, under the plugin's name, the command
    prefixes that were not there before and, for each selector, the handlers
    past the length its list had before.  Unloading right after deletes that
    record and no other, removes the recorded prefixes and keeps every other
    command; a selector's list goes back to its first entries, those below
    the earlier length, provided none of the handlers recorded for it is
    also among them; in any case it goes back to them up to their order. *)
Theorem load_then_unload (modules : string → Imported) (plugin_name : string)
    (init : Initializer) (b b1 : Bot) :
  init b = (b1, true) →
  let loaded := load_plugin modules plugin_name (Some init) b in
  let unloaded := unload_plugin plugin_name loaded in
  let before e := length (default [] (event_functions b !! e)) in
  (∃ info, loaded_plugins loaded !! plugin_name = Some info
     ∧ pl_commands info
       = filter (λ k, k ∉ PyDict.keys (commands b)) (PyDict.keys (commands b1))
     ∧ ∀ e, pl_handlers info !! e
            = match event_functions b1 !! e with
              | Some hs => if decide (before e < length hs)
                           then Some (drop (before e) hs) else None
              | None => None
              end)
  ∧ commands loaded = commands b1
  ∧ event_functions loaded = event_functions b1
  ∧ (∀ other, other ≠ plugin_name →
       loaded_plugins loaded !! other = loaded_plugins b1 !! other)
  ∧ loaded_plugins unloaded = delete plugin_name (loaded_plugins b1)
  ∧ commands unloaded
    = filter (λ kv, kv.1 ∈ PyDict.keys (commands b)) (commands b1)
  ∧ (∀ e, event_functions b1 !! e = None → event_functions unloaded !! e = None)
  ∧ (∀ e hs, event_functions b1 !! e = Some hs →
       (∀ h, h ∈ drop (before e) hs → h ∉ take (before e) hs) →
       event_functions unloaded !! e = Some (take (before e) hs))
  ∧ (∀ e hs, event_functions b1 !! e = Some hs →
       ∃ hs', event_functions unloaded !! e = Some hs'
              ∧ hs' ≡ₚ take (before e) hs)
  ∧ users unloaded = users b1 ∧ nick unloaded = nick b1.
Proof.
  intros Hinit loaded unloaded before.
  set (info := {| pl_commands :=
                    new_commands (PyDict.keys (commands b)) (PyDict.keys (commands b1));
                  pl_handlers :=
                    new_handlers (length <$> event_functions b) (event_functions b1) |}).
  assert (loaded = with_loaded_plugins (<[plugin_name := info]> (loaded_plugins b1)) b1)
    as Hloaded.
  { unfold loaded, load_plugin. rewrite Hinit. reflexivity. }
  assert (unloaded =
            with_loaded_plugins (delete plugin_name (loaded_plugins b1))
              (with_event_functions
                 (unregister_handlers (pl_handlers info) (event_functions b1))
                 (with_commands
                    (unregister_commands (pl_commands info) (commands b1)) b1)))
    as Hunloaded.
  { unfold unloaded, unload_plugin. rewrite Hloaded. simpl.
    rewrite lookup_insert_eq. unfold with_loaded_plugins. simpl.
    by rewrite delete_insert_eq. }
  assert (∀ e, event_functions unloaded !! e
               = match event_functions b1 !! e with
                 | Some hs =>
                     Some (if decide (before e < length hs)
                           then remove_handlers (drop (before e) hs) hs
                           else hs)
                 | None => None
                 end) as Hef.
  { intros e. rewrite Hunloaded. simpl.
    rewrite unregister_handlers_lookup. simpl. rewrite new_handlers_lookup.
    fold (before e).
    destruct (event_functions b1 !! e) as [hs|]; [|reflexivity].
    by destruct (decide (before e < length hs)). }
  split; [|split; [|split; [|split; [|split; [|split; [|split; [|split; [|split]]]]]]]].
  - exists info. rewrite Hloaded. simpl. rewrite lookup_insert_eq.
    split; [reflexivity|]. split; [reflexivity|].
    intros e. apply new_handlers_lookup.
  - by rewrite Hloaded.
  - by rewrite Hloaded.
  - intros other Hne. rewrite Hloaded. simpl. by rewrite lookup_insert_ne.
  - by rewrite Hunloaded.
  - rewrite Hunloaded. simpl. apply unload_keeps_old_commands.
  - intros e He. by rewrite Hef, He.
  - intros e hs He Hd. rewrite Hef, He. f_equal.
    destruct (decide (before e < length hs)).
    + rewrite <- (take_drop (before e) hs) at 2. by apply remove_handlers_tail.
    + symmetry. apply take_ge. lia.
  - intros e hs He. rewrite Hef, He. eexists. split; [reflexivity|].
    destruct (decide (before e < length hs)).
    + apply remove_handlers_perm.
      rewrite <- (take_drop (before e) hs) at 1. apply Permutation_app_comm.
    + by rewrite take_ge by lia.
  - by rewrite Hunloaded.
Qed.

Lemma load_then_unload_witness :
  let loaded := load_plugin no_modules "x" (Some init_x) plugin_base in
  let unloaded := unload_plugin "x" loaded in
  (∃ info, loaded_plugins loaded !! "x" = Some info
           ∧ pl_commands info = ["/a"; "/b"]
           ∧ pl_handlers info !! GLOBAL = Some [12])
  ∧ commands loaded = [("Ping", 1); (".hv afk", 20); ("/a", 10); ("/b", 11)]
  ∧ event_functions loaded !! GLOBAL = Some [internal; 21; 12]
  ∧ loaded_plugins unloaded = loaded_plugins plugin_base
  ∧ commands unloaded = commands plugin_base
  ∧ event_functions unloaded !! GLOBAL = Some [internal; 21]
  ∧ event_functions unloaded !! SelType TChat = Some [22]
  ∧ unloaded = plugin_base.
Proof.
  cbv zeta.
  destruct (load_then_unload no_modules "x" init_x plugin_base
              (init_x plugin_base).1 eq_refl)
    as ((info & Hinfo & Hcmds & Hhs) & Hc & Hef & _ & Hlp & Hcu & _ & Hback & _).
  split.
  { exists info. split; [exact Hinfo|]. split.
    - rewrite Hcmds. reflexivity.
    - rewrite Hhs. reflexivity. }
  split; [rewrite Hc; reflexivity|].
  split; [rewrite Hef; reflexivity|].
  split; [rewrite Hlp; reflexivity|].
  split; [rewrite Hcu; reflexivity|].
  split.
  { apply (Hback GLOBAL [internal; 21; 12]); [reflexivity|].
    intros h Hh Hpre. vm_compute in Hh, Hpre. no_elem. }
  split.
  { apply (Hback (SelType TChat) [22]); [reflexivity|].
    intros h Hh. vm_compute in Hh. no_elem. }
  reflexivity.
Defined.

(** C8: the initializer registers function 5, which is a global handler
    already, before function 6.  The unload removes the first 5 of the list,
    not the one the plugin added: 6 is now called before 5. *)
Lemma unload_reorders_handlers :
  let loaded := load_plugin no_modules "again" (Some init_again) handlers_5_6 in
  event_functions handlers_5_6 !! GLOBAL = Some [internal; 5; 6]
  ∧ event_functions loaded !! GLOBAL = Some [internal; 5; 6; 5]
  ∧ pl_handlers <$> loaded_plugins loaded !! "again" = Some {[ GLOBAL := [5] ]}
  ∧ event_functions (unload_plugin "again" loaded) !! GLOBAL
    = Some [internal; 6; 5].
Proof. repeat split; reflexivity. Qed.

(** * Further properties of the classifier *)

Section ClassifierMore.
Context {lax : LaxCoercion}.

(** X1: a [warn] with a string for text is the rate-limited event with the
    reason of [RL_MAPPING] when the dict has the text, raises [KeyError] on
    the one phrase of the list the dict lacks, and is the plain warning on
    any other text; the envelope is not touched. *)
Theorem warn_classification (d : envelope) (s : string) :
  d !! "cmd" = Some (JStr "warn") →
  d !! "text" = Some (JStr s) →
  json_to_object d =
    (match RL_MAPPING s with
     | Some r => Ok (EvRateLimited {| rl_type := r; rl_text := s |})
     | None =>
         if String.eqb s INVITE_RL_TEXT then Raise KeyError
         else Ok (EvWarn {| warn_text := s |})
     end, d).
Proof.
  intros Hc Ht. rewrite json_to_object_warn by exact Hc.
  by apply classify_warn_text.
Qed.

(** X2: the class of the event returned follows from [cmd]. *)
Theorem class_follows_cmd (d d' : envelope) (ev : Event) :
  json_to_object d = (Ok ev, d') →
  type_of ev ∈ classes_of_cmd (d !! "cmd").
Proof.
  intros H.
  pose proof (never_change_nick_nor_invite d d' ev H) as [Hcn Hinv].
  unfold json_to_object, classify_info, classify_warn, uncatched,
    construct_kw, construct, bind, get, get_or_empty, getitem, setitem,
    delitem, lift, ret, raise in H.
  unfold classes_of_cmd.
  repeat case_match; simplify_eq/=;
    repeat match goal with
           | H : get_is _ _ = _ |- _ => rewrite H
           end;
    try (exfalso; apply Hcn; reflexivity);
    try (exfalso; apply Hinv; reflexivity);
    repeat first [ apply list_elem_of_here
                 | apply list_elem_of_further ].

Qed.

(** X3: only an emote and an info envelope are written to; on every other
    value of [cmd] the envelope is left as it was, whether the call returns
    or raises. *)
Theorem other_commands_leave_envelope (d : envelope) :
  get_is (d !! "cmd") "emote" = false →
  get_is (d !! "cmd") "info" = false →
  (json_to_object d).2 = d.
Proof.
  intros He Hi.
  unfold json_to_object, classify_warn, uncatched, construct, bind, get,
    ret, raise.
  repeat case_match; simplify_eq/=; try reflexivity; congruence.
Qed.

End ClassifierMore.

(** ** Where the content of an emote and of a whisper comes from *)

Lemma partition_unfold (sep s : string) :
  PyStr.partition sep s
  = if String.prefix sep s then Some ("", PyStr.drop (String.length sep) s)
    else match s with
         | EmptyString => None
         | String c s' =>
             match PyStr.partition sep s' with
             | Some (a, b) => Some (String c a, b)
             | None => None
             end
         end.
Proof. destruct s; reflexivity. Qed.

Lemma drop_append_length (a b : string) :
  PyStr.drop (String.length a) (a +:+ b) = b.
Proof. induction a as [|c a IH]; [reflexivity|exact IH]. Qed.

Lemma prefix_append (sep a r : string) :
  String.prefix sep a = true → String.prefix sep (a +:+ r) = true.
Proof.
  rewrite !prefix_app. intros [x ->]. exists (x +:+ r). apply append_assoc.
Qed.

(** [partition] cuts at an occurrence of the separator, and at the first. *)
Lemma partition_Some (sep s a b : string) :
  sep ≠ "" →
  PyStr.partition sep s = Some (a, b) →
  s = a +:+ sep +:+ b ∧ PyStr.partition sep a = None.
Proof.
  intros Hsep. revert a b. induction s as [|c s IH]; intros a b.
  - rewrite partition_unfold. destruct (String.prefix sep "") eqn:E.
    + apply prefix_app in E as [r Hr]. destruct sep; [done|discriminate Hr].
    + discriminate.
  - rewrite partition_unfold. destruct (String.prefix sep (String c s)) eqn:E.
    + intros [= <- <-]. apply prefix_app in E as [r Hr]. split.
      * rewrite Hr at 2. by rewrite drop_append_length.
      * rewrite partition_unfold.
        destruct (String.prefix sep "") eqn:E'; [|reflexivity].
        apply prefix_app in E' as [r' Hr']. destruct sep; [done|discriminate Hr'].
    + destruct (PyStr.partition sep s) as [[a' b']|] eqn:Hp; [|discriminate].
      intros [= <- <-]. destruct (IH a' b' eq_refl) as [-> Hnone]. split.
      * reflexivity.
      * rewrite partition_unfold, Hnone.
        destruct (String.prefix sep (String c a')) eqn:E'; [|reflexivity].
        apply (prefix_append _ _ (sep +:+ b')) in E'.
        rewrite append_cons in E'. congruence.
Qed.

Lemma partition_space_None (a : string) :
  PyStr.partition " " a = None → PyStr.count " " a = 0.
Proof.
  induction a as [|c a IH]; [reflexivity|].
  rewrite partition_space_cons. simpl.
  destruct (Ascii.eqb c " "); [discriminate|].
  destruct (PyStr.partition " " a) as [[]|]; [discriminate|]. auto.
Qed.

Lemma index_split1 (sep s x : string) :
  py_index (PyStr.split1 sep s) 1 = Ok x →
  ∃ a, PyStr.partition sep s = Some (a, x).
Proof.
  unfold PyStr.split1. destruct (PyStr.partition sep s) as [[a b]|].
  - intros [= ->]. eauto.
  - discriminate.
Qed.

Lemma v_str_Some (j : json) (s : string) : v_str j = Some s → j = JStr s.
Proof. destruct j; simpl; congruence. Qed.

Lemma req_str (g : string → option json) (k s : string) :
  req g k v_str = Some s → g k = Some (JStr s).
Proof.
  unfold req. destruct (g k) as [j|]; [|discriminate].
  intros H. by rewrite (v_str_Some j s H).
Qed.

Section Contents.
Context {lax : LaxCoercion}.

Lemma mk_Emote_text (g : string → option json) (p : EmotePackage) :
  mk_Emote g = Some p →
  g "text" = Some (JStr (emote_text p))
  ∧ g "content" = Some (JStr (emote_content p))
  ∧ g "nick" = Some (JStr (emote_nick p)).
Proof.
  unfold mk_Emote. intros H.
  repeat match type of H with
         | (?m ≫= _) = Some _ =>
             let E := fresh "E" in
             destruct m eqn:E; simpl in H; [|discriminate H]
         end.
  injection H as <-. simpl. auto using req_str.
Qed.

Lemma mk_Whisper_text (g : string → option json) (p : WhisperPackage) :
  mk_Whisper g = Some p →
  g "text" = Some (JStr (wh_text p))
  ∧ g "content" = Some (JStr (wh_content p))
  ∧ g "from" = Some (JStr (wh_nick p)).
Proof.
  unfold mk_Whisper. intros H.
  repeat match type of H with
         | (?m ≫= _) = Some _ =>
             let E := fresh "E" in
             destruct m eqn:E; simpl in H; [|discriminate H]
         end.
  injection H as <-. simpl. auto using req_str.
Qed.

Lemma mk_WhisperSent_text (g : string → option json) (p : WhisperSentPackage) :
  mk_WhisperSent g = Some p →
  g "text" = Some (JStr (ws_text p))
  ∧ g "content" = Some (JStr (ws_content p)).
Proof.
  unfold mk_WhisperSent. intros H.
  repeat match type of H with
         | (?m ≫= _) = Some _ =>
             let E := fresh "E" in
             destruct m eqn:E; simpl in H; [|discriminate H]
         end.
  injection H as <-. simpl. auto using req_str.
Qed.

(** X4: the content of an emote event is the text of the envelope after its
    first space (what is before has no space: the name of the speaker), and
    the call leaves the envelope with that content written under
    [content]. *)
Theorem emote_content_after_first_space (d d' : envelope) (p : EmotePackage) :
  json_to_object d = (Ok (EvEmote p), d') →
  d !! "text" = Some (JStr (emote_text p))
  ∧ d' = <["content" := JStr (emote_content p)]> d
  ∧ ∃ speaker, emote_text p = speaker +:+ " " +:+ emote_content p
               ∧ PyStr.count " " speaker = 0.
Proof.
  intros H.
  unfold json_to_object, classify_info, classify_warn, uncatched,
    construct_kw, construct, bind, get, get_or_empty, getitem, setitem,
    delitem, lift, ret, raise in H.
  repeat case_match; simplify_eq/=.
  match goal with
  | Hm : mk_Emote _ = Some _ |- _ =>
      apply mk_Emote_text in Hm as (Ht & Hc & _)
  end.
  rewrite lookup_insert_ne in Ht by discriminate.
  rewrite lookup_insert_eq in Hc. injection Hc as ->.
  match goal with
  | Hd : _ !! "text" = Some ?a |- _ =>
      is_var a; rewrite Ht in Hd; injection Hd as <-
  end.
  simpl in *. simplify_eq.
  match goal with
  | Hi : py_index _ 1 = Ok _ |- _ => apply index_split1 in Hi as [speaker Hp]
  end.
  apply partition_Some in Hp as [Htext Hnone]; [|discriminate].
  split; [assumption || reflexivity|]. split; [reflexivity|].
  exists speaker. split; [exact Htext|]. by apply partition_space_None.
Qed.

(** X5: an info envelope tagged as a whisper becomes the confirmation of a
    whisper sent exactly when its text starts with ["You whispered to"], and
    a whisper received otherwise; either way the content of the event is
    the text after the first colon-space, and the envelope is left with
    that content under [content]. *)
Theorem whisper_content_after_colon (d d' : envelope) (ev : Event)
    (sent : bool) (text content : string) :
  json_to_object d = (Ok ev, d') →
  whisper_parts ev = Some (sent, text, content) →
  PyStr.startswith text "You whispered to" = sent
  ∧ d !! "text" = Some (JStr text)
  ∧ d' !! "content" = Some (JStr content)
  ∧ ∃ head, text = head +:+ ": " +:+ content
            ∧ PyStr.partition ": " head = None.
Proof.
  intros H Hparts.
  unfold json_to_object, classify_info, classify_warn, uncatched,
    construct_kw, construct, bind, get, get_or_empty, getitem, setitem,
    delitem, lift, ret, raise in H.
  repeat case_match; simplify_eq/=.
  - match goal with
    | Hm : mk_WhisperSent _ = Some _ |- _ =>
        apply mk_WhisperSent_text in Hm as (Ht & Hc)
    end.
    rewrite lookup_insert_ne in Ht by discriminate.
    rewrite lookup_insert_eq in Hc. injection Hc as ->.
    repeat match goal with
           | Hd : _ !! "text" = Some ?a |- _ =>
               is_var a; rewrite Ht in Hd; injection Hd as <-
           end.
    simpl in *. simplify_eq.
    match goal with
    | Hi : py_index _ 1 = Ok _ |- _ => apply index_split1 in Hi as [head Hp]
    end.
    apply partition_Some in Hp as [Htext Hnone]; [|discriminate].
    rewrite lookup_insert_eq. repeat split; try assumption; eauto.
  - match goal with
    | Hm : mk_Whisper _ = Some _ |- _ =>
        apply mk_Whisper_text in Hm as (Ht & Hc & _)
    end.
    rewrite lookup_insert_ne in Ht by discriminate.
    rewrite lookup_delete_ne in Ht by discriminate.
    rewrite lookup_insert_ne in Ht by discriminate.
    rewrite lookup_insert_eq in Hc. injection Hc as ->.
    rewrite lookup_delete_ne, lookup_insert_ne in * by discriminate.
    repeat match goal with
           | Hd : _ !! "text" = Some ?a |- _ =>
               is_var a; rewrite Ht in Hd; injection Hd as <-
           end.
    simpl in *. simplify_eq.
    match goal with
    | Hi : py_index _ 1 = Ok _ |- _ => apply index_split1 in Hi as [head Hp]
    end.
    apply partition_Some in Hp as [Htext Hnone]; [|discriminate].
    rewrite Ht in *. simpl in *. simplify_eq.
    rewrite lookup_insert_eq. repeat split; try assumption; eauto.
Qed.

End Contents.

(** ** Instances on the sample envelopes *)

Lemma warn_classification_witness :
  json_to_object (lax:=json_native) sample_warn_other
  = (Ok (EvWarn {| warn_text := "Nickname taken" |}), sample_warn_other)
  ∧ json_to_object (lax:=json_native) sample_warn_global
    = (Ok (EvRateLimited {| rl_type := GLOBAL_RL; rl_text := GLOBAL_RL_TEXT |}),
       sample_warn_global).
Proof.
  split.
  - apply (warn_classification (lax:=json_native) sample_warn_other
             "Nickname taken"); reflexivity.
  - apply (warn_classification (lax:=json_native) sample_warn_global
             GLOBAL_RL_TEXT); reflexivity.
Defined.

Lemma class_follows_cmd_witness :
  type_of sample_emote_event ∈ classes_of_cmd (sample_emote !! "cmd").
Proof.
  apply (class_follows_cmd (lax:=json_native) sample_emote
           (json_to_object (lax:=json_native) sample_emote).2
           sample_emote_event).
  reflexivity.
Defined.

Lemma other_commands_leave_envelope_witness :
  (json_to_object (lax:=json_native) sample_chat_bad_level).2
  = sample_chat_bad_level.
Proof.
  apply (other_commands_leave_envelope (lax:=json_native) sample_chat_bad_level);
    reflexivity.
Defined.

Lemma emote_content_after_first_space_witness :
  sample_emote !! "text" = Some (JStr "@Alice waves")
  ∧ (json_to_object (lax:=json_native) sample_emote).2
    = <["content" := JStr "waves"]> sample_emote
  ∧ ∃ speaker, "@Alice waves" = speaker +:+ " " +:+ "waves"
               ∧ PyStr.count " " speaker = 0.
Proof.
  apply (emote_content_after_first_space (lax:=json_native) sample_emote
           (json_to_object (lax:=json_native) sample_emote).2
           {| emote_channel := "lounge"; emote_nick := "Alice";
              emote_text := "@Alice waves"; emote_content := "waves";
              emote_time := 0; emote_trip := None; emote_userid := 7 |}).
  reflexivity.
Defined.

Lemma whisper_content_after_colon_witness :
  PyStr.startswith "Alice whispered: hi" "You whispered to" = false
  ∧ sample_whisper !! "text" = Some (JStr "Alice whispered: hi")
  ∧ (json_to_object (lax:=json_native) sample_whisper).2 !! "content"
    = Some (JStr "hi")
  ∧ ∃ head, "Alice whispered: hi" = head +:+ ": " +:+ "hi"
            ∧ PyStr.partition ": " head = None.
Proof.
  apply (whisper_content_after_colon (lax:=json_native) sample_whisper
           (json_to_object (lax:=json_native) sample_whisper).2
           sample_whisper_event false "Alice whispered: hi" "hi");
    reflexivity.
Defined.

(** * Further properties of the session directory *)

Lemma get_users_by_go_value (by_ : string) (v : PyVal) (results us : list User) :
  String.eqb by_ "function" = false →
  get_users_by_go by_ (MValue v) results us
  = Ok (results ++ filter (λ u, py_eq (user_attr u by_) v = true) us).
Proof.
  intros Hby. revert results.
  induction us as [|u us IH]; intros results; cbn [get_users_by_go].
  - by rewrite app_nil_r.
  - rewrite Hby. cbn [negb]. rewrite filter_cons.
    destruct (py_eq (user_attr u by_) v) eqn:E.
    + rewrite decide_True by done. rewrite IH. by rewrite <- app_assoc.
    + rewrite decide_False by discriminate. apply IH.
Qed.

Lemma filter_nick_attr (us : list User) (n : string) :
  filter (λ u, py_eq (user_attr u "nick") (VStr n) = true) us
  = get_users_by_nick us n.
Proof.
  unfold get_users_by_nick. apply list_filter_iff. intros u.
  change (user_attr u "nick") with (VStr (u_nick u)). simpl.
  apply String.eqb_eq.
Qed.

Lemma get_user_by_nick_find (us : list User) (n : string) :
  get_user_by_nick us n = snd <$> list_find (λ u, u_nick u = n) us.
Proof.
  unfold get_user_by_nick, get_users_by_nick.
  induction us as [|u us IH]; [reflexivity|].
  rewrite filter_cons. cbn [list_find].
  destruct (decide (u_nick u = n)); [reflexivity|].
  rewrite IH. by destruct (list_find _ us).
Qed.

(** X6: looking a user up by nickname gives the first user of the roster
    with that nickname, and none exactly when no user of the roster has
    it. *)
Theorem get_user_by_nick_first (us : list User) (n : string) :
  get_users_by us "nick" (MValue (VStr n)) = Ok (get_users_by_nick us n)
  ∧ get_user_by us "nick" (MValue (VStr n)) = Ok (get_user_by_nick us n)
  ∧ get_user_by_nick us n = snd <$> list_find (λ u, u_nick u = n) us
  ∧ (get_user_by_nick us n = None ↔ Forall (λ u, u_nick u ≠ n) us).
Proof.
  assert (get_users_by us "nick" (MValue (VStr n)) = Ok (get_users_by_nick us n))
    as Hall.
  { unfold get_users_by. rewrite get_users_by_go_value by reflexivity.
    by rewrite filter_nick_attr. }
  pose proof (get_user_by_nick_find us n) as Hfind.
  split; [exact Hall|]. split; [|split; [exact Hfind|]].
  - unfold get_user_by. by rewrite Hall.
  - rewrite Hfind, fmap_None. apply list_find_None.
Qed.

(** X7: with [by] set to ["function"] and something that is no callable,
    the lookup raises [ValueError] on a roster with a user on it and
    returns the empty list on an empty roster; with a [by] that names no
    attribute, every user matches [None] and no user matches another
    value. *)
Theorem get_users_by_edges (us : list User) (by_ : string) (v : PyVal) :
  get_users_by us "function" (MValue v)
  = match us with [] => Ok [] | _ => Raise ValueError end
  ∧ (by_ ∉ USER_ATTRIBUTES → by_ ≠ "function" →
     get_users_by us by_ (MValue v)
     = Ok (match v with VNone => us | _ => [] end)).
Proof.
  split; [by destruct us|].
  intros Hattr Hfun.
  assert (String.eqb by_ "function" = false) as Hf by by apply String.eqb_neq.
  unfold get_users_by. rewrite get_users_by_go_value by exact Hf. simpl.
  assert (∀ u, user_attr u by_ = VNone) as Hnone.
  { intros u. unfold user_attr, USER_ATTRIBUTES in *.
    repeat match goal with
           | |- context [String.eqb by_ ?a] =>
               destruct (String.eqb_spec by_ a) as [->|_];
               [exfalso; apply Hattr;
                repeat first [ apply list_elem_of_here
                             | apply list_elem_of_further ] |]
           end.
    reflexivity. }
  f_equal. induction us as [|u us IH]; [by destruct v|].
  rewrite filter_cons, Hnone, IH.
  destruct v; reflexivity.
Qed.

(** ** Joining and leaving *)

Lemma list_remove_first_find (us : list User) (n : string) (i : nat) (u : User) :
  list_find (λ u, u_nick u = n) us = Some (i, u) →
  list_remove_first u us = delete i us.
Proof.
  revert i. induction us as [|x us IH]; intros i; [discriminate|].
  cbn [list_find]. destruct (decide (u_nick x = n)) as [Hx|Hx].
  - intros [= <- <-]. simpl. by rewrite decide_True.
  - destruct (list_find _ us) as [[j y]|] eqn:Hf; [|discriminate].
    intros [= <- <-]. simpl.
    assert (u_nick y = n) as Hy by (apply list_find_Some in Hf; tauto).
    rewrite decide_False by congruence. f_equal. by apply IH.
Qed.

Section Directory.
Context (B : Behaviour).

(** X8: a leave event takes the first user with its nickname off the
    roster, and no other; when no user has the nickname nothing changes. *)
Theorem leave_removes_first (p : OnlineRemovePackage) (b : Bot) :
  (internal_handler B (EvOnlineRemove p) b).1
  = with_users
      (match list_find (λ u, u_nick u = rem_nick p) (users b) with
       | Some (i, _) => delete i (users b)
       | None => users b
       end) b
  ∧ (internal_handler B (EvOnlineRemove p) b).2 = [].
Proof.
  unfold internal_handler. simpl. split; [|reflexivity].
  rewrite get_user_by_nick_find.
  destruct (list_find _ (users b)) as [[i u]|] eqn:E; simpl.
  - by rewrite (list_remove_first_find _ _ _ _ E).
  - by destruct b.
Qed.

(** X9: a user who joins under a nickname that is not on the roster is
    found under it afterwards, not flagged as the bot itself, and the leave
    event for the nickname puts the bot back as it was. *)
Theorem join_then_leave (p : OnlineAddPackage) (q : OnlineRemovePackage) (b : Bot) :
  get_user_by_nick (users b) (add_nick p) = None →
  rem_nick q = add_nick p →
  let joined := (internal_handler B (EvOnlineAdd p) b).1 in
  get_user_by_nick (users joined) (add_nick p) = Some (user_of_join p)
  ∧ u_isme (user_of_join p) = false
  ∧ (internal_handler B (EvOnlineRemove q) joined).1 = b.
Proof.
  intros Hnone Hq joined.
  assert (users joined = users b ++ [user_of_join p]) as Hj by reflexivity.
  assert (get_user_by_nick (users joined) (add_nick p) = Some (user_of_join p))
    as Hfound.
  { rewrite Hj. unfold get_user_by_nick, get_users_by_nick in *.
    rewrite filter_app.
    destruct (filter _ (users b)) as [|x l] eqn:E; [|discriminate Hnone].
    simpl. rewrite filter_cons, decide_True by reflexivity. reflexivity. }
  split; [exact Hfound|]. split; [reflexivity|].
  unfold internal_handler. cbn [fst]. rewrite Hq, Hfound.
  cbn [fst]. unfold with_users. simpl.
  assert (list_remove_first (user_of_join p) (users b ++ [user_of_join p])
          = users b) as Hrm.
  { clear Hj Hfound. unfold get_user_by_nick, get_users_by_nick in Hnone.
    revert Hnone. generalize (users b) as l.
    induction l as [|x l IH]; simpl; intros Hnone.
    - by rewrite decide_True.
    - rewrite filter_cons in Hnone.
      destruct (decide (u_nick x = add_nick p)) as [Hx|Hx]; [discriminate Hnone|].
      rewrite decide_False by (intros ->; by apply Hx).
      f_equal. by apply IH. }
  transitivity
    (with_users
       (list_remove_first (user_of_join p) (users b ++ [user_of_join p])) b);
    [reflexivity|].
  rewrite Hrm. by destruct b.
Qed.

(** X10: on an event that is neither a chat message nor a whisper
    received, the internal handler calls no command, so that no code but
    its own runs: it changes nothing of the bot but the roster, and the
    roster only on the four events of the directory.  (On a chat message
    and on a whisper it runs the commands, of which nothing is said
    here.) *)
Theorem internal_handler_touches_roster_only (ev : Event) (b : Bot) :
  type_of ev ∉ [TChat; TWhisper] →
  (internal_handler B ev b).2 = []
  ∧ (∃ us, (internal_handler B ev b).1 = with_users us b)
  ∧ (type_of ev ∉ [TOnlineSet; TOnlineAdd; TOnlineRemove; TUpdateUser] →
     (internal_handler B ev b).1 = b).
Proof.
  intros Hcmd.
  assert (with_users (users b) b = b) as Hid by by destruct b.
  split; [|split].
  - destruct ev; try reflexivity; exfalso; apply Hcmd; simpl;
      repeat first [ apply list_elem_of_here | apply list_elem_of_further ].
  - unfold internal_handler. destruct ev; simpl; eauto.
    destruct (get_user_by_nick _ _); simpl; eauto.
  - intros Hty. destruct ev; try reflexivity; exfalso; apply Hty; simpl;
      repeat first [ apply list_elem_of_here | apply list_elem_of_further ].
Qed.

End Directory.

Lemma get_users_by_edges_witness :
  get_users_by [alice] "function" (MValue VNone) = Raise ValueError
  ∧ get_users_by [alice] "age" (MValue VNone) = Ok [alice].
Proof.
  destruct (get_users_by_edges [alice] "age" VNone) as [Hfun Hattr].
  split; [exact Hfun|]. apply Hattr.
  - intros Hin. vm_compute in Hin. no_elem.
  - discriminate.
Defined.

Lemma join_then_leave_witness :
  let joined := (internal_handler quiet (EvOnlineAdd sample_join) command_bot).1 in
  get_user_by_nick (users joined) "Bob" = Some (user_of_join sample_join)
  ∧ u_isme (user_of_join sample_join) = false
  ∧ (internal_handler quiet (EvOnlineRemove (sample_leave "Bob")) joined).1
    = command_bot.
Proof.
  apply (join_then_leave quiet sample_join (sample_leave "Bob") command_bot);
    reflexivity.
Defined.

Lemma internal_handler_touches_roster_only_witness :
  (internal_handler quiet sample_emote_event command_bot).1 = command_bot
  ∧ (internal_handler quiet sample_emote_event command_bot).2 = [].
Proof.
  destruct (internal_handler_touches_roster_only quiet sample_emote_event
              command_bot) as (Htrace & _ & Hbot).
  - intros Hin. vm_compute in Hin. no_elem.
  - split; [apply Hbot | exact Htrace].
    intros Hin. vm_compute in Hin. no_elem.
Defined.

(** * Further properties of the dispatch engine *)

Section DispatchMore.
Context {lax : LaxCoercion} (B : Behaviour).

Lemma foldl_call_or_schedule (ev : Event) (hs : list handler) (e : Engine) :
  let e' := foldl (call_or_schedule B (Some ev)) e hs in
  bot e' = bot e ∧ status e' = status e
  ∧ tasks e'
    = tasks e ++ ((λ h, (h, Some ev)) <$> filter (λ h, is_coro B h = true) hs)
  ∧ called_events (trace e')
    = called_events (trace e) ++ filter (λ h, is_coro B h = false) hs.
Proof.
  revert e. induction hs as [|h hs IH]; intros e; cbn [foldl].
  - cbn zeta. rewrite !filter_nil. simpl. by rewrite !app_nil_r.
  - cbn zeta in *. destruct (IH (call_or_schedule B (Some ev) e h))
      as (-> & -> & -> & ->).
    rewrite !filter_cons. destruct (is_coro B h) eqn:Hc.
    + rewrite decide_True by done. rewrite decide_False by done.
      unfold call_or_schedule. rewrite Hc.
      destruct (decide (h = internal)); simpl;
        by rewrite <- app_assoc.
    + rewrite decide_False by done. rewrite decide_True by done.
      unfold call_or_schedule. rewrite Hc. simpl.
      unfold called_events. rewrite omap_app. simpl.
      rewrite <- app_assoc. do 2 f_equal.
      by destruct (event_raises B h (Some ev)).
Qed.

Lemma run_events_some (sel : Selector) (ev : Event) (e : Engine) :
  let hs := default [] (event_functions (bot e) !! sel) in
  let e' := run_events B sel (Some ev) e in
  bot e' = bot e ∧ status e' = status e
  ∧ tasks e'
    = tasks e ++ ((λ h, (h, Some ev)) <$> filter (λ h, is_coro B h = true) hs)
  ∧ called_events (trace e')
    = called_events (trace e) ++ filter (λ h, is_coro B h = false) hs.
Proof. apply foldl_call_or_schedule. Qed.

(** X11: of handlers that take the event as their argument and leave the
    registries alone while it is dispatched, as those of [Behaviour] do:
    dispatching an event goes through the global handlers and then through
    those of the event's class, each group in the order of registration:
    the plain functions among them are all called, whether or not one of
    them raises, and the coroutine functions are all scheduled; an
    exception of a plain function does not end the loop. *)
Theorem dispatch_order (ev : Event) (e : Engine) :
  status (dispatch B ev e) = status e
  ∧ tasks (dispatch B ev e)
    = tasks e ++ ((λ h, (h, Some ev))
                    <$> filter (λ h, is_coro B h = true) (handlers_for (bot e) ev))
  ∧ called_events (trace (dispatch B ev e))
    = called_events (trace e)
      ++ filter (λ h, is_coro B h = false) (handlers_for (bot e) ev).
Proof.
  unfold dispatch, handlers_for.
  destruct (run_events_some GLOBAL ev e) as (Hb & Hs & Ht & Hc).
  destruct (run_events_some (SelType (type_of ev)) ev
              (run_events B GLOBAL (Some ev) e)) as (Hb' & Hs' & Ht' & Hc').
  rewrite Hs', Ht', Hc', Hb, Hs, Ht, Hc.
  rewrite !filter_app, fmap_app, <- !app_assoc. done.
Qed.

(** ** The end of the loop *)

Lemma finish_not_running (e : Engine) : status (finish B e) ≠ Running.
Proof. unfold finish. simpl. by destruct (status (drain B e)). Qed.

Lemma on_frame_stop (ig : bool) (e : Engine) (f : Frame) :
  is_stop f = true → status (on_frame B ig e f) ≠ Running.
Proof.
  intros Hf. unfold on_frame.
  destruct (status (suspend B e)) eqn:Hs; [|by rewrite Hs..].
  destruct f; try discriminate Hf; apply finish_not_running.
Qed.

Lemma foldl_not_running (ig : bool) (e : Engine) (fs : list Frame) :
  status e ≠ Running → foldl (on_frame B ig) e fs = e.
Proof.
  intros Hs. induction fs as [|f fs IH]; [reflexivity|].
  simpl. by rewrite not_running_absorbs.
Qed.

(** X12: an empty frame or a closed connection ends the loop: it is not
    running afterwards, and whatever frames follow change nothing. *)
Theorem stop_frame_ends_loop (ig : bool) (b : Bot) (fs rest : list Frame)
    (f : Frame) :
  is_stop f = true →
  status (run B ig b (fs ++ [f])) ≠ Running
  ∧ run B ig b (fs ++ f :: rest) = run B ig b (fs ++ [f]).
Proof.
  intros Hf. unfold run. rewrite !foldl_app. cbn [foldl].
  split; [by apply on_frame_stop|].
  apply foldl_not_running. by apply on_frame_stop.
Qed.

(** ** What can crash the loop *)

Lemma foldl_run_task_status (e : Engine) (ts : list (handler * option Event)) :
  Forall (harmless B) ts → status (foldl (run_task B) e ts) = status e.
Proof.
  intros Hts. revert e. induction Hts as [|t ts Ht _ IH]; intros e; [done|].
  simpl. rewrite IH. unfold run_task.
  destruct (decide (t.1 = internal)); [by destruct t.2|].
  simpl. by rewrite Ht.
Qed.

Lemma drain_sound (e : Engine) : sound B e → sound B (drain B e).
Proof.
  intros [Hs Ht]. split.
  - unfold drain. by rewrite foldl_run_task_status.
  - by rewrite drain_tasks.
Qed.

Lemma suspend_sound (e : Engine) : sound B e → sound B (suspend B e).
Proof. intros He. unfold suspend. destruct (status e); auto using drain_sound. Qed.

Lemma finish_sound (e : Engine) : sound B e → sound B (finish B e).
Proof.
  intros He. destruct (drain_sound e He) as [Hs Ht].
  split; [|exact Ht]. unfold finish. simpl. by destruct (status (drain B e)).
Qed.

Hypothesis coroutines_do_not_raise :
  ∀ h arg, h ≠ internal → is_coroutine B h = true → event_raises B h arg = false.

Lemma call_or_schedule_sound (arg : option Event) (e : Engine) (h : handler) :
  sound B e → sound B (call_or_schedule B arg e h).
Proof.
  intros [Hs Ht]. split; [by rewrite call_or_schedule_status|].
  unfold call_or_schedule. destruct (is_coro B h) eqn:Hc; [|exact Ht].
  assert (harmless B (h, arg)) as Hh.
  { intros Hne. simpl in *. unfold is_coro in Hc.
    rewrite decide_False in Hc by done. by apply coroutines_do_not_raise. }
  destruct (decide (h = internal)), arg; simpl;
    try exact Ht; apply Forall_app; auto.
Qed.

Lemma run_events_sound (sel : Selector) (arg : option Event) (e : Engine) :
  sound B e → sound B (run_events B sel arg e).
Proof.
  unfold run_events.
  generalize (default [] (event_functions (bot e) !! sel)). intros hs.
  revert e. induction hs as [|h hs IH]; intros e He; [done|].
  simpl. by apply IH, call_or_schedule_sound.
Qed.

Lemma suspend_status (e : Engine) :
  sound B e → status (suspend B e) = status e.
Proof.
  intros [_ Ht]. unfold suspend. destruct (status e) eqn:Hs; [|done..].
  unfold drain. by rewrite foldl_run_task_status.
Qed.

Lemma on_frame_sound (ig : bool) (e : Engine) (f : Frame) :
  is_fatal f = false → sound B e → sound B (on_frame B ig e f).
Proof.
  intros Hf He. apply suspend_sound in He. unfold on_frame.
  destruct (status (suspend B e)); [|done..].
  destruct f as [d| | | | |]; try discriminate Hf.
  - destruct ((json_to_object d).1); [|exact He].
    destruct (_ && _); [exact He|].
    by apply run_events_sound, run_events_sound.
  - exact He.
  - by apply finish_sound.
  - by apply finish_sound, run_events_sound.
Qed.

Lemma run_sound (ig : bool) (b : Bot) (fs : list Frame) :
  Forall (λ f, is_fatal f = false) fs → sound B (run B ig b fs).
Proof.
  unfold run. assert (sound B (start b)) as He by (split; [done|constructor]).
  revert He. generalize (start b).
  induction fs as [|f fs IH]; intros e He Hfs; [exact He|].
  apply Forall_cons in Hfs as [Hf Hfs].
  simpl. by apply IH; [apply on_frame_sound|].
Qed.

(** X13: the loop ends with an error only when a coroutine event handler
    raises, when a frame is no JSON text, or when [recv] raises something
    other than [ConnectionClosed].  Where no coroutine handler raises,
    whatever the plain functions and the commands raise, no sequence of
    other frames brings it there; and a frame that is no JSON text, or such
    an exception of [recv], does end the running loop with an error. *)
Theorem only_coroutines_crash (ig : bool) (b : Bot) (fs : list Frame) :
  Forall (λ f, is_fatal f = false) fs →
  status (run B ig b fs) ≠ Crashed
  ∧ (∀ f, is_fatal f = true → status (run B ig b fs) = Running →
       status (run B ig b (fs ++ [f])) = Crashed).
Proof.
  intros Hfs. pose proof (run_sound ig b fs Hfs) as Hsound.
  split; [by destruct Hsound|].
  intros f Hf Hrun. unfold run in *. rewrite foldl_app. cbn [foldl].
  set (e := foldl (on_frame B ig) (start b) fs) in *.
  unfold on_frame. cbv zeta. rewrite (suspend_status _ Hsound), Hrun.
  by destruct f.
Qed.

(** X14: [ignore_self] matters only for an event that carries the bot's
    own nickname: a frame that gives no such event is handled the same way
    with either setting. *)
Theorem ignore_self_scope (ig : bool) (e : Engine) (d : envelope) :
  (∀ ev, (json_to_object d).1 = Ok ev → nick_of ev ≠ Some (nick (bot e))) →
  on_frame B ig e (Data d) = on_frame B false e (Data d).
Proof.
  intros Hother. unfold on_frame.
  destruct (status (suspend B e)); [|done..].
  destruct ((json_to_object d).1) as [ev|x] eqn:Hev; [|done].
  assert (is_self (bot (suspend B e)) ev = false) as ->; [|by rewrite andb_false_r].
  unfold is_self. rewrite suspend_nick.
  specialize (Hother ev eq_refl).
  destruct (nick_of ev) as [n|]; [|done].
  apply String.eqb_neq. congruence.
Qed.

End DispatchMore.

Lemma stop_frame_ends_loop_witness :
  status (run (lax:=json_native) quiet true chat_bot (two_chats ++ [EmptyFrame]))
  ≠ Running
  ∧ run (lax:=json_native) quiet true chat_bot
      (two_chats ++ EmptyFrame :: two_chats)
    = run (lax:=json_native) quiet true chat_bot (two_chats ++ [EmptyFrame]).
Proof.
  apply (stop_frame_ends_loop (lax:=json_native) quiet true chat_bot two_chats
           two_chats EmptyFrame).
  reflexivity.
Defined.

Lemma only_coroutines_crash_witness :
  status (run (lax:=json_native) (first_raises false) true chat_bot two_chats)
  ≠ Crashed
  ∧ status (run (lax:=json_native) (first_raises false) true chat_bot
              (two_chats ++ [NotJson])) = Crashed.
Proof.
  destruct (only_coroutines_crash (lax:=json_native) (first_raises false)
              ltac:(intros h arg _ Hc; discriminate Hc) true chat_bot two_chats)
    as [Hok Hfatal].
  - repeat constructor.
  - split; [exact Hok|]. apply Hfatal; reflexivity.
Defined.

Lemma ignore_self_scope_witness :
  on_frame (lax:=json_native) quiet true (start chat_bot)
    (Data (sample_chat "Alice" "hi"))
  = on_frame (lax:=json_native) quiet false (start chat_bot)
      (Data (sample_chat "Alice" "hi")).
Proof.
  apply (ignore_self_scope (lax:=json_native) quiet true (start chat_bot)
           (sample_chat "Alice" "hi")).
  intros ev Hev. vm_compute in Hev. injection Hev as <-. discriminate.
Defined.

(** * Further properties of the registries *)

Lemma PyDict_get_set_eq {V} (k : string) (v : V) (d : list (string * V)) :
  PyDict.get k (PyDict.set k v d) = Some v.
Proof.
  induction d as [|[k' v'] d IH]; simpl.
  - by rewrite decide_True.
  - destruct (decide (k' = k)) as [->|Hne]; simpl.
    + by rewrite decide_True.
    + by rewrite decide_False.
Qed.

Lemma PyDict_get_set_ne {V} (k k' : string) (v : V) (d : list (string * V)) :
  k ≠ k' → PyDict.get k' (PyDict.set k v d) = PyDict.get k' d.
Proof.
  intros Hne. induction d as [|[k0 v0] d IH]; simpl.
  - by rewrite decide_False.
  - destruct (decide (k0 = k)) as [->|Hne0]; simpl.
    + by rewrite !decide_False.
    + by rewrite IH.
Qed.

Lemma PyDict_keys_set {V} (k : string) (v : V) (d : list (string * V)) :
  PyDict.keys (PyDict.set k v d)
  = if PyDict.mem k d then PyDict.keys d else PyDict.keys d ++ [k].
Proof.
  unfold PyDict.mem, PyDict.keys.
  induction d as [|[k' v'] d IH]; cbn [PyDict.set].
  - by rewrite bool_decide_eq_false_2 by apply not_elem_of_nil.
  - destruct (decide (k' = k)) as [->|Hne]; rewrite !fmap_cons; cbn [fst].
    + by rewrite bool_decide_eq_true_2 by left.
    + rewrite IH. destruct (decide (k ∈ d.*1)) as [Hin|Hin].
      * rewrite !bool_decide_eq_true_2; [done|by right|done].
      * rewrite !bool_decide_eq_false_2; [done| |done].
        rewrite not_elem_of_cons. split; [congruence|done].
Qed.

Lemma PyDict_set_fresh {V} (k : string) (v : V) (d : list (string * V)) :
  k ∉ PyDict.keys d → PyDict.set k v d = d ++ [(k, v)].
Proof.
  unfold PyDict.keys. induction d as [|[k' v'] d IH]; intros Hk; [reflexivity|].
  rewrite fmap_cons, not_elem_of_cons in Hk. destruct Hk as [Hne Hk].
  simpl in *. rewrite decide_False by congruence. by rewrite IH.
Qed.

Lemma PyDict_get_filter {V} (P : string → Prop) `{!∀ k, Decision (P k)}
    (k : string) (d : list (string * V)) :
  PyDict.get k (filter (λ kv, P kv.1) d)
  = if decide (P k) then PyDict.get k d else None.
Proof.
  induction d as [|[k' v'] d IH]; simpl.
  - by destruct (decide (P k)).
  - rewrite filter_cons. simpl.
    destruct (decide (P k')) as [Hk'|Hk']; simpl.
    + rewrite IH. destruct (decide (k' = k)) as [->|Hne];
        [by rewrite decide_True|done].
    + rewrite IH. destruct (decide (k' = k)) as [->|Hne];
        [by rewrite !decide_False|done].
Qed.

(** X15: a registered command is found under its prefix; the other
    prefixes keep their functions; a prefix registered again keeps its
    place in the order the commands are tried in, and a new one goes
    last. *)
Theorem register_command_lookup (prefix : string) (function : handler)
    (b : Bot) :
  PyDict.get prefix (commands (register_command prefix function b))
  = Some function
  ∧ (∀ other, other ≠ prefix →
       PyDict.get other (commands (register_command prefix function b))
       = PyDict.get other (commands b))
  ∧ PyDict.keys (commands (register_command prefix function b))
    = (if PyDict.mem prefix (commands b) then PyDict.keys (commands b)
       else PyDict.keys (commands b) ++ [prefix])
  ∧ (NoDup (PyDict.keys (commands b)) →
     NoDup (PyDict.keys (commands (register_command prefix function b)))).
Proof.
  unfold register_command. simpl. split; [apply PyDict_get_set_eq|].
  split; [intros other Hne; by apply PyDict_get_set_ne|].
  split; [apply PyDict_keys_set|].
  intros Hnd. rewrite PyDict_keys_set. unfold PyDict.mem.
  destruct (bool_decide (prefix ∈ PyDict.keys (commands b))) eqn:E; [done|].
  apply bool_decide_eq_false in E.
  apply NoDup_app. split; [done|]. split; [|apply NoDup_singleton].
  intros x Hx Hx'. apply list_elem_of_singleton in Hx'. by subst.
Qed.

Lemma register_event_function_lookup (e e' : Selector) (f : handler) (b : Bot) :
  default [] (event_functions (register_event_function e f b) !! e')
  = default [] (event_functions b !! e') ++ (if decide (e = e') then [f] else []).
Proof.
  unfold register_event_function.
  destruct (event_functions b !! e) as [fs|] eqn:E; simpl;
    (destruct (decide (e = e')) as [<-|Hne];
     [rewrite lookup_insert_eq, ?E
     |rewrite lookup_insert_ne by done; by rewrite app_nil_r]); done.
Qed.

(** X16: a handler registered for a class of events comes, for an event
    of that class, after every handler there was; one registered as a
    global handler comes after the global handlers and before those of the
    class; for an event of another class nothing changes. *)
Theorem registered_handler_position (f : handler) (ev : Event)
    (t : PackageType) (b : Bot) :
  handlers_for (register_event_function (SelType t) f b) ev
  = handlers_for b ev ++ (if decide (t = type_of ev) then [f] else [])
  ∧ handlers_for (register_global_function f b) ev
    = default [] (event_functions b !! GLOBAL) ++ [f]
      ++ default [] (event_functions b !! SelType (type_of ev)).
Proof.
  unfold handlers_for, register_global_function.
  rewrite !register_event_function_lookup. split.
  - unfold GLOBAL. rewrite decide_False by discriminate. rewrite app_nil_r.
    destruct (decide (t = type_of ev)) as [->|Hne].
    + by rewrite decide_True, app_assoc.
    + rewrite decide_False by congruence. by rewrite !app_nil_r.
  - rewrite decide_True by done. unfold GLOBAL.
    rewrite decide_False by discriminate. by rewrite app_nil_r, <- app_assoc.
Qed.

Lemma register_command_lookup_witness :
  PyDict.get "Ping" (commands (register_command "Ping" 9 command_bot)) = Some 9
  ∧ PyDict.get ".hv plugin" (commands (register_command "Ping" 9 command_bot))
    = Some 1
  ∧ NoDup (PyDict.keys (commands (register_command "Ping" 9 command_bot))).
Proof.
  destruct (register_command_lookup "Ping" 9 command_bot)
    as (Hget & Hother & _ & Hnodup).
  split; [exact Hget|]. split.
  - rewrite Hother by discriminate. reflexivity.
  - apply Hnodup. vm_compute. repeat constructor; intros Hin; no_elem.
Defined.

(** * Further properties of the plugin manager *)

Lemma register_event_function_lookup_Some (e e' : Selector) (f : handler)
    (b : Bot) :
  event_functions (register_event_function e f b) !! e'
  = if decide (e = e') then Some (default [] (event_functions b !! e) ++ [f])
    else event_functions b !! e'.
Proof.
  unfold register_event_function.
  destruct (event_functions b !! e) as [fs|] eqn:E; simpl;
    (destruct (decide (e = e')) as [<-|Hne];
     [by rewrite lookup_insert_eq | by rewrite lookup_insert_ne]).
Qed.

Lemma new_handlers_same (ef : gmap Selector (list handler)) :
  new_handlers (length <$> ef) ef = ∅.
Proof.
  apply map_eq. intros e. rewrite new_handlers_lookup, lookup_empty.
  destruct (ef !! e) as [hs|]; [|done]. simpl.
  by rewrite decide_False by lia.
Qed.

Lemma unregister_handlers_empty (ef : gmap Selector (list handler)) :
  unregister_handlers ∅ ef = ef.
Proof.
  apply map_eq. intros e. by rewrite unregister_handlers_lookup, lookup_empty.
Qed.

Lemma filter_keys_all {V} (d : list (string * V)) (ks : list string) :
  PyDict.keys d ⊆ ks → filter (λ kv, kv.1 ∈ ks) d = d.
Proof.
  unfold PyDict.keys. induction d as [|kv d IH]; intros Hsub; [reflexivity|].
  rewrite filter_cons, decide_True by (apply Hsub; left).
  rewrite IH; [done|]. intros k Hk. apply Hsub. by right.
Qed.

Lemma unload_after_load (name : string) (info : Plugin) (b1 : Bot) :
  unload_plugin name
    (with_loaded_plugins (<[name := info]> (loaded_plugins b1)) b1)
  = with_loaded_plugins (delete name (loaded_plugins b1))
      (with_event_functions
         (unregister_handlers (pl_handlers info) (event_functions b1))
         (with_commands (unregister_commands (pl_commands info) (commands b1))
            b1)).
Proof.
  unfold unload_plugin. simpl. rewrite lookup_insert_eq.
  unfold with_loaded_plugins, with_event_functions, with_commands. simpl.
  by rewrite delete_insert_eq.
Qed.

(** X17: when the initializer given to [load_plugin] raises, what it
    registered before stays, no record is made, and unloading the name
    afterwards removes nothing. *)
Theorem failed_load_keeps_no_record (modules : string → Imported)
    (name : string) (init : Initializer) (b b1 : Bot) :
  init b = (b1, false) →
  load_plugin modules name (Some init) b = b1
  ∧ (loaded_plugins b1 !! name = None →
     unload_plugin name (load_plugin modules name (Some init) b) = b1).
Proof.
  intros Hinit.
  assert (load_plugin modules name (Some init) b = b1) as Hl
    by (unfold load_plugin; by rewrite Hinit).
  split; [exact Hl|]. intros Hnone. rewrite Hl.
  unfold unload_plugin. by rewrite Hnone.
Qed.

(** X18: unloading a plugin takes away every prefix of its record,
    whatever function is bound to it by then, and leaves the functions of
    all other prefixes as they are. *)
Theorem unload_commands (name : string) (info : Plugin) (b : Bot)
    (k : string) :
  loaded_plugins b !! name = Some info →
  PyDict.get k (commands (unload_plugin name b))
  = if bool_decide (k ∈ pl_commands info) then None
    else PyDict.get k (commands b).
Proof.
  intros Hinfo. unfold unload_plugin. rewrite Hinfo. simpl.
  rewrite unregister_commands_filter.
  etransitivity;
    [exact (PyDict_get_filter (λ k, k ∉ pl_commands info) k (commands b))|].
  destruct (decide (k ∈ pl_commands info)) as [Hin|Hin].
  - rewrite decide_False by tauto. by rewrite bool_decide_eq_true_2.
  - rewrite decide_True by done. by rewrite bool_decide_eq_false_2.
Qed.

(** X19: unloading a name twice is unloading it once; the records of the
    other plugins, the roster and the nickname are never touched. *)
Theorem unload_twice (name : string) (b : Bot) :
  unload_plugin name (unload_plugin name b) = unload_plugin name b
  ∧ loaded_plugins (unload_plugin name b) = delete name (loaded_plugins b)
  ∧ users (unload_plugin name b) = users b
  ∧ nick (unload_plugin name b) = nick b.
Proof.
  assert (loaded_plugins (unload_plugin name b) = delete name (loaded_plugins b))
    as Hlp.
  { unfold unload_plugin.
    destruct (loaded_plugins b !! name) eqn:E; [reflexivity|].
    by rewrite delete_id. }
  split; [|split; [exact Hlp|]].
  - unfold unload_plugin at 1. by rewrite Hlp, lookup_delete_eq.
  - unfold unload_plugin. by destruct (loaded_plugins b !! name).
Qed.

(** X20: loading [testplugin] on a bot that has no plugin of the name and
    unloading it gives the bot back when the command name was free; when
    the name was a command already, the plugin's function has replaced the
    earlier one and stays after the unloading. *)
Theorem test_plugin_round_trip (modules : string → Imported)
    (name command_name : string) (hello : handler) (b : Bot) :
  loaded_plugins b !! name = None →
  unload_plugin name
    (load_plugin modules name (Some (test_plugin_init command_name hello)) b)
  = if PyDict.mem command_name (commands b)
    then register_command command_name hello b
    else b.
Proof.
  intros Hnone. unfold load_plugin, test_plugin_init. cbn [fst snd].
  rewrite unload_after_load. cbn [pl_commands pl_handlers].
  assert (event_functions (register_command command_name hello b)
          = event_functions b) as -> by reflexivity.
  rewrite new_handlers_same, unregister_handlers_empty.
  rewrite unload_keeps_old_commands.
  assert (loaded_plugins (register_command command_name hello b)
          = loaded_plugins b) as -> by reflexivity.
  rewrite delete_id by done.
  unfold register_command, PyDict.mem. cbn [commands with_commands].
  destruct (decide (command_name ∈ PyDict.keys (commands b))) as [Hin|Hin].
  - rewrite bool_decide_eq_true_2 by done.
    rewrite filter_keys_all.
    + by destruct b.
    + rewrite PyDict_keys_set. unfold PyDict.mem.
      by rewrite bool_decide_eq_true_2.
  - rewrite bool_decide_eq_false_2 by done.
    rewrite PyDict_set_fresh by done. rewrite filter_app, filter_keys_all by done.
    rewrite filter_cons, decide_False by done. rewrite filter_nil, app_nil_r.
    by destruct b.
Qed.

(** X21: loading [example_plugin_afk] and unloading it takes its command
    and its two handlers away again, when the prefix was free and the bot
    had no plugin of the name: the bot is as before, but for a selector
    that had no list, which now has an empty one. *)
Theorem afk_plugin_round_trip (modules : string → Imported)
    (name command_prefix : string) (mark_afk back_check on_chat : handler)
    (b : Bot) :
  loaded_plugins b !! name = None →
  command_prefix ∉ PyDict.keys (commands b) →
  back_check ∉ default [] (event_functions b !! GLOBAL) →
  on_chat ∉ default [] (event_functions b !! SelType TChat) →
  let init := afk_plugin_init command_prefix mark_afk back_check on_chat in
  let unloaded := unload_plugin name (load_plugin modules name (Some init) b) in
  unloaded
  = with_event_functions
      (<[SelType TChat := default [] (event_functions b !! SelType TChat)]>
         (<[GLOBAL := default [] (event_functions b !! GLOBAL)]>
            (event_functions b))) b
  ∧ (is_Some (event_functions b !! GLOBAL) →
     is_Some (event_functions b !! SelType TChat) → unloaded = b).
Proof.
  intros Hnone Hfresh Hback Hchat init unloaded.
  assert (unloaded
          = with_event_functions
              (<[SelType TChat := default [] (event_functions b !! SelType TChat)]>
                 (<[GLOBAL := default [] (event_functions b !! GLOBAL)]>
                    (event_functions b))) b) as Hun.
  { unfold unloaded, init, load_plugin, afk_plugin_init. cbn [fst snd].
    rewrite unload_after_load. cbn [pl_commands pl_handlers].
    set (b1 := register_event_function (SelType TChat) on_chat
                 (register_global_function back_check
                    (register_command command_prefix mark_afk b))).
    assert (commands b1 = PyDict.set command_prefix mark_afk (commands b))
      as Hc.
    { unfold b1, register_global_function, register_event_function.
      repeat (case_match; simpl); reflexivity. }
    assert (loaded_plugins b1 = loaded_plugins b) as Hl.
    { unfold b1, register_global_function, register_event_function.
      repeat (case_match; simpl); reflexivity. }
    assert (users b1 = users b ∧ nick b1 = nick b ∧ killed b1 = killed b)
      as (Hu & Hn & Hk).
    { unfold b1, register_global_function, register_event_function.
      repeat (case_match; simpl); done. }
    assert (∀ e, event_functions b1 !! e
                 = if decide (e = SelType TChat)
                   then Some (default [] (event_functions b !! SelType TChat)
                              ++ [on_chat])
                   else if decide (e = GLOBAL)
                   then Some (default [] (event_functions b !! GLOBAL)
                              ++ [back_check])
                   else event_functions b !! e) as Hef.
    { intros e. unfold b1, register_global_function.
      rewrite !register_event_function_lookup_Some.
      assert (event_functions (register_command command_prefix mark_afk b)
              = event_functions b) as -> by reflexivity.
      destruct (decide (e = SelType TChat)) as [->|Hne].
      - rewrite decide_True by done. unfold GLOBAL.
        by rewrite decide_False by discriminate.
      - rewrite (decide_False (P := SelType TChat = e)) by congruence.
        destruct (decide (e = GLOBAL)) as [->|Hne'].
        + by rewrite decide_True.
        + by rewrite decide_False by congruence. }
    rewrite Hc, Hl. rewrite delete_id by done.
    rewrite unload_keeps_old_commands.
    rewrite PyDict_set_fresh by done.
    rewrite filter_app, filter_keys_all by done.
    rewrite filter_cons, decide_False by done. rewrite filter_nil, app_nil_r.
    assert (unregister_handlers
              (new_handlers (length <$> event_functions b) (event_functions b1))
              (event_functions b1)
            = <[SelType TChat := default [] (event_functions b !! SelType TChat)]>
                (<[GLOBAL := default [] (event_functions b !! GLOBAL)]>
                   (event_functions b))) as ->.
    { apply map_eq. intros e.
      rewrite unregister_handlers_lookup, new_handlers_lookup, Hef.
      destruct (decide (e = SelType TChat)) as [->|Hne].
      - rewrite lookup_insert_eq.
        rewrite decide_True by (rewrite length_app; simpl; lia).
        rewrite drop_app_length. cbn [fmap option_fmap option_map]. f_equal.
        apply (remove_handlers_tail _ [on_chat]). intros h Hh.
        apply list_elem_of_singleton in Hh. by subst.
      - rewrite lookup_insert_ne by congruence.
        destruct (decide (e = GLOBAL)) as [->|Hne'].
        + rewrite lookup_insert_eq.
          rewrite decide_True by (rewrite length_app; simpl; lia).
          rewrite drop_app_length. cbn [fmap option_fmap option_map]. f_equal.
          apply (remove_handlers_tail _ [back_check]). intros h Hh.
          apply list_elem_of_singleton in Hh. by subst.
        + rewrite lookup_insert_ne by congruence.
          destruct (event_functions b !! e) as [hs|]; [|done]. simpl.
          by rewrite decide_False by lia. }
    unfold with_loaded_plugins, with_event_functions, with_commands. simpl.
    by rewrite Hu, Hn, Hk. }
  split; [exact Hun|].
  intros [g Hg] [t Ht]. rewrite Hun, Hg, Ht. simpl.
  rewrite (insert_id _ GLOBAL g) by done.
  rewrite insert_id by done. by destruct b.
Qed.

Lemma failed_load_keeps_no_record_witness :
  load_plugin no_modules "half" (Some init_fails) command_bot
  = register_command "/half" 30 command_bot
  ∧ unload_plugin "half"
      (load_plugin no_modules "half" (Some init_fails) command_bot)
    = register_command "/half" 30 command_bot.
Proof.
  destruct (failed_load_keeps_no_record no_modules "half" init_fails
              command_bot (register_command "/half" 30 command_bot) eq_refl)
    as [Hload Hunload].
  split; [exact Hload|]. apply Hunload. reflexivity.
Defined.

Lemma unload_commands_witness :
  PyDict.get ".hv afk" (commands (unload_plugin "example_plugin_afk" plugin_base))
  = None
  ∧ PyDict.get "Ping" (commands (unload_plugin "example_plugin_afk" plugin_base))
    = Some 1.
Proof.
  split.
  - apply (unload_commands "example_plugin_afk"
             {| pl_commands := [".hv afk"];
                pl_handlers := {[ GLOBAL := [21]; SelType TChat := [22] ]} |}
             plugin_base ".hv afk").
    vm_compute. reflexivity.
  - apply (unload_commands "example_plugin_afk"
             {| pl_commands := [".hv afk"];
                pl_handlers := {[ GLOBAL := [21]; SelType TChat := [22] ]} |}
             plugin_base "Ping").
    vm_compute. reflexivity.
Defined.

Lemma test_plugin_round_trip_witness :
  unload_plugin "testplugin"
    (load_plugin no_modules "testplugin"
       (Some (test_plugin_init ".hv plugin" 40)) command_bot)
  = register_command ".hv plugin" 40 command_bot.
Proof.
  apply (test_plugin_round_trip no_modules "testplugin" ".hv plugin" 40
           command_bot).
  reflexivity.
Defined.

Lemma afk_plugin_round_trip_witness :
  unload_plugin "example_plugin_afk"
    (load_plugin no_modules "example_plugin_afk"
       (Some (afk_plugin_init ".hv afk" 20 21 22)) command_bot)
  = with_event_functions
      (<[SelType TChat := []]> (event_functions command_bot)) command_bot.
Proof.
  destruct (afk_plugin_round_trip no_modules "example_plugin_afk" ".hv afk"
              20 21 22 command_bot) as [Hun _].
  - reflexivity.
  - intros Hin. vm_compute in Hin. no_elem.
  - intros Hin. vm_compute in Hin. no_elem.
  - intros Hin. vm_compute in Hin. no_elem.
  - rewrite Hun. vm_compute. reflexivity.
Defined.

(** * Properties of what the bot sends *)

Lemma route_one_command (B : Behaviour) (us : list User) (via : Via)
    (ev : Event) (sender text : string) (command : string * handler)
    (h : handler) (ctx : CommandContext) :
  CalledCommand h ctx ∈ route_one B us via ev sender text command →
  u_nick (ctx_sender ctx) = sender ∧ ctx_triggered_via ctx = via
  ∧ ctx_sender ctx ∈ us ∧ ctx_event ctx = ev ∧ ctx_text ctx = text.
Proof.
  unfold route_one. destruct (matches text command.1); [|intros H; no_elem].
  destruct (get_user_by_nick us sender) as [u|] eqn:Hu;
    [|intros H; no_elem; discriminate].
  assert (u ∈ us ∧ u_nick u = sender) as [Hin Hn].
  { unfold get_user_by_nick, get_users_by_nick in Hu.
    apply head_Some_elem_of in Hu. by apply list_elem_of_filter in Hu as [? ?]. }
  destruct (command_args text command.1) as [args|];
    [|intros H; no_elem; discriminate].
  intros H. apply elem_of_cons in H as [H|H].
  - injection H as -> ->. done.
  - destruct (command_raises _ _ _); no_elem; discriminate.
Qed.

(** X22: a reply to a command goes back to the one who issued it and by
    the way the command came: to the channel, with the sender mentioned
    when asked for, or as a whisper to the sender; it is one payload, and
    nothing when the websocket is not set. *)
Theorem reply_goes_back (B : Behaviour) (b : Bot) (via : Via) (ev : Event)
    (sender text : string) (h : handler) (ctx : CommandContext)
    (reply : string) (at_sender : bool) (w : Wire) :
  CalledCommand h ctx ∈ route B b via ev sender text →
  respond ctx reply at_sender w
  = if connected w
    then {| connected := true;
            sent := sent w ++ [reply_payload via sender reply at_sender] |}
    else w.
Proof.
  intros Hin. unfold route in Hin.
  apply list_elem_of_In, in_flat_map in Hin as (command & _ & Hin).
  apply list_elem_of_In, route_one_command in Hin as (Hn & Hv & _).
  unfold respond, whisper, send_message, send_model. rewrite Hv, Hn.
  destruct via, (connected w) eqn:Hc; simpl; try reflexivity.
Qed.

(** X23: [change_nick] with a name of at most 24 letters, digits and
    underscores makes it the bot's nickname, also when the websocket is not
    set, and sends one request when it is; with any other name it raises
    [ValueError] and neither changes nor sends anything. *)
Theorem change_nick_outcome (n : string) (b : Bot) (w : Wire) :
  (valid_nick n →
   change_nick n (b, w)
   = (Ok (),
      (with_nick n b,
       if connected w
       then {| connected := true;
               sent := sent w ++ [[("cmd", JStr "changenick");
                                   ("nick", JStr n)]] |}
       else w)))
  ∧ (¬ valid_nick n → change_nick n (b, w) = (Raise ValueError, (b, w))).
Proof.
  unfold valid_nick, change_nick. split.
  - intros Hv. apply verifyNick_iff in Hv. rewrite Hv. simpl.
    unfold send_model. by destruct (connected w).
  - intros Hv. destruct (verifyNick n) eqn:E; [|reflexivity].
    by apply verifyNick_iff in E.
Qed.

Lemma uneditable_call (m : Message) (w : Wire) (c : MessageCall) :
  msg_editable m = false →
  message_call (m, w) c
  = ({| msg_text := text_after (msg_text m) c; msg_customId := msg_customId m;
        msg_editable := false |}, w).
Proof.
  intros He. destruct m as [t i e]. simpl in He. subst e.
  destruct c; reflexivity.
Qed.

(** X24: a message that is not editable, as one sent without [editable]
    or one completed, sends no update whatever is called on it, and stays
    so; its local text changes all the same. *)
Theorem uneditable_message_sends_nothing (m : Message) (w : Wire)
    (calls : list MessageCall) :
  msg_editable m = false →
  foldl message_call (m, w) calls
  = ({| msg_text := foldl text_after (msg_text m) calls;
        msg_customId := msg_customId m; msg_editable := false |}, w).
Proof.
  revert m. induction calls as [|c calls IH]; intros m He.
  - destruct m. simpl in *. by subst.
  - cbn [foldl]. rewrite uneditable_call by done. by rewrite IH.
Qed.

(** X25: on a message sent as editable, each call of [edit], [prepend]
    or [append] sends one update with the message's [customId], the mode
    and the text of the call, in the order of the calls, and the local text
    follows them. *)
Theorem editable_message_updates (text generated : string) (w : Wire)
    (calls : list MessageCall) :
  generated ≠ "" →
  connected w = true →
  Forall (λ c, is_complete c = false) calls →
  let s := send_message text true generated w in
  foldl message_call s calls
  = ({| msg_text := foldl text_after text calls;
        msg_customId := Some generated; msg_editable := true |},
     {| connected := true;
        sent := sent s.2 ++ (edit_payload generated <$> calls) |}).
Proof.
  intros Hg Hc Hcalls s.
  assert (s = ({| msg_text := text; msg_customId := Some generated;
                  msg_editable := true |},
               {| connected := true; sent := sent s.2 |})) as ->.
  { unfold s, send_message, send_model, new_message. rewrite Hc. reflexivity. }
  cbn [snd sent]. generalize (sent s.2). clear s. intros l.
  apply String.eqb_neq in Hg.
  revert text l. induction Hcalls as [|c calls Hcc _ IH]; intros text l.
  - simpl. by rewrite app_nil_r.
  - cbn [foldl]. rewrite fmap_cons.
    assert (message_call
              ({| msg_text := text; msg_customId := Some generated;
                  msg_editable := true |},
               {| connected := true; sent := l |}) c
            = ({| msg_text := text_after text c;
                  msg_customId := Some generated; msg_editable := true |},
               {| connected := true;
                  sent := l ++ [edit_payload generated c] |})) as ->.
    { destruct c; try discriminate Hcc;
        unfold message_call, msg_edit_with, generate_edit_request, with_text;
        simpl; rewrite Hg; reflexivity. }
    rewrite IH. by rewrite <- app_assoc.
Qed.

(** X26: nothing is sent while the websocket is not set; otherwise a
    request is one payload, which holds [cmd] and every field that has a
    value, and no field that is [None]; a custom request is its raw
    object. *)
Theorem payload_has_no_null (model : Request) (w : Wire) :
  (connected w = false → send_model model w = w)
  ∧ (connected w = true →
     ∃ payload, send_model model w
                = {| connected := true; sent := sent w ++ [payload] |}
       ∧ (∀ rawjson, model = CustomRequest rawjson → payload = rawjson)
       ∧ (is_custom model = false →
          Forall (λ kv, is_none kv.2 = false) payload
          ∧ is_Some (PyDict.get "cmd" payload)
          ∧ ∀ k v, PyDict.get k (model_dump model) = Some v →
                   is_none v = false → PyDict.get k payload = Some v)).
Proof.
  split; intros Hc; unfold send_model; rewrite Hc; [reflexivity|].
  eexists. split; [reflexivity|]. split.
  - intros rawjson ->. reflexivity.
  - intros Hcustom.
    destruct model as [t [c|]|n t|t|c|n|n [t|]|n c [p|]| |c m [t|]|r];
      try discriminate Hcustom; simpl;
      (split; [repeat constructor|]);
      (split; [by eexists|]);
      intros k v Hk Hv;
      repeat match type of Hk with
             | (if decide (?a = k) then _ else _) = _ =>
                 destruct (decide (a = k)) as [<-|?];
                 [injection Hk as <-; try discriminate Hv; try reflexivity|]
             end;
      try discriminate Hk;
      repeat (rewrite decide_False by done); try reflexivity.
Qed.

Lemma reply_goes_back_witness :
  respond ping_context "pong" true online
  = {| connected := true;
       sent := [[("cmd", JStr "chat"); ("text", JStr "@Alice pong")]] |}.
Proof.
  apply (reply_goes_back quiet command_bot via_chat
           (chat_event "Alice" "Ping me") "Alice" "Ping me" 3 ping_context
           "pong" true online).
  vm_compute. apply list_elem_of_here.
Defined.

Lemma change_nick_outcome_witness :
  change_nick "hv_2" (command_bot, offline)
  = (Ok (), (with_nick "hv_2" command_bot, offline))
  ∧ change_nick "no way" (command_bot, online)
    = (Raise ValueError, (command_bot, online)).
Proof.
  destruct (change_nick_outcome "hv_2" command_bot offline) as [Hok _].
  destruct (change_nick_outcome "no way" command_bot online) as [_ Hbad].
  split.
  - apply Hok. split; [simpl; lia|].
    repeat constructor; unfold word_char; simpl; lia.
  - apply Hbad. intros [_ Hchars]. simpl in Hchars.
    inversion Hchars as [|? ? _ H1]. inversion H1 as [|? ? _ H2].
    inversion H2 as [|? ? Hspace _]. unfold word_char in Hspace.
    simpl in Hspace. lia.
Defined.

Lemma uneditable_message_sends_nothing_witness :
  foldl message_call (new_message "hi" None, online)
    [CallEdit "a"; CallAppend "b"]
  = ({| msg_text := "ab"; msg_customId := None; msg_editable := false |},
     online).
Proof.
  apply (uneditable_message_sends_nothing (new_message "hi" None) online
           [CallEdit "a"; CallAppend "b"]).
  reflexivity.
Defined.

Lemma editable_message_updates_witness :
  foldl message_call (send_message "Loading" true "abc123" online)
    [CallAppend "."; CallEdit "Done"]
  = ({| msg_text := "Done"; msg_customId := Some "abc123";
        msg_editable := true |},
     {| connected := true;
        sent := [[("cmd", JStr "chat"); ("text", JStr "Loading");
                  ("customId", JStr "abc123")];
                 edit_payload "abc123" (CallAppend ".");
                 edit_payload "abc123" (CallEdit "Done")] |}).
Proof.
  apply (editable_message_updates "Loading" "abc123" online
           [CallAppend "."; CallEdit "Done"]).
  - discriminate.
  - reflexivity.
  - repeat constructor.
Defined.

Lemma payload_has_no_null_witness :
  send_model (ChatRequest "hi" None) offline = offline
  ∧ ∃ payload,
      send_model (ChatRequest "hi" None) online
      = {| connected := true; sent := [payload] |}
      ∧ Forall (λ kv, is_none kv.2 = false) payload.
Proof.
  destruct (payload_has_no_null (ChatRequest "hi" None) offline) as [Hoff _].
  destruct (payload_has_no_null (ChatRequest "hi" None) online) as [_ Hon].
  split; [apply Hoff; reflexivity|].
  destruct (Hon eq_refl) as (payload & Hp & _ & Hn).
  exists payload. split; [exact Hp|]. apply Hn. reflexivity.
Defined.

(** * The command router *)




